(** * Personal expense tracker: a shallow embedding of the Python program

    The program has two classes.  [Transaction] is a validated record
    (kind, category, amount); [ExpenseTracker] owns a list of transactions,
    answers two aggregation queries and saves/loads the list as JSON and CSV.

    Modelling choices, fixed once for the whole development:
    - text is [string]: characters are the code points below 256;
    - amounts are Python [int]s, i.e. [Z] with exact arithmetic.  The source
      annotates amounts as [float] but its own example calls pass ints;
      binary64 rounding, [inf] and [nan] are outside this embedding, and so
      are the limits an interpreter puts on sizes (the field size limit of
      the csv reader, the digit limit of int to str conversion);
    - the parameters of a method have the types of their annotations
      ([str], [str], number).  Where data read from a file has another
      dynamic type, the embedding follows Python as long as Python raises,
      and stops with [Unmodelled] where Python would go on with a value the
      typed records cannot hold;
    - a method is a function from the world (the tracker object, the file
      system, the lines printed so far) to a result and the world
      afterwards, so what an exception leaves behind stays visible. *)

From Stdlib Require Import ZArith Ascii String Lia.
From stdpp Require Import gmap strings list fin_maps pretty.

Set Warnings "-register-all,-clear-no-such-hyp".
Local Open Scope Z_scope.

(** ** Python values, exceptions, results *)

(** The values that [json] exchanges with a program (no floats, see above).
    A [dict] keeps its insertion order. *)
Inductive value :=
| VNone
| VBool (b : bool)
| VInt (z : Z)
| VStr (s : string)
| VList (items : list value)
| VDict (entries : list (string * value)).

(** [type(v).__name__] *)
Definition type_name (v : value) : string :=
  match v with
  | VNone => "NoneType"
  | VBool _ => "bool"
  | VInt _ => "int"
  | VStr _ => "str"
  | VList _ => "list"
  | VDict _ => "dict"
  end.

Inductive exn :=
| ValueError (msg : string)
| TypeError (msg : string)
| KeyError (key : string)
| FileNotFoundError (filename : string)
| PermissionError (filename : string)
| JSONDecodeError (msg : string)
| csv_Error (msg : string)
| Unmodelled (what : string).

Inductive result (A : Type) :=
| Return (a : A)
| Raise (e : exn).
Arguments Return {A} a.
Arguments Raise {A} e.

Definition result_bind {A B} (k : A → result B) (r : result A) : result B :=
  match r with
  | Return a => k a
  | Raise e => Raise e
  end.
Global Instance result_ret : MRet result := @Return.
Global Instance result_mbind : MBind result := @result_bind.

(** A list comprehension whose element expression may raise: elements are
    built left to right and the first exception ends the comprehension. *)
Fixpoint comprehension {A B} (f : A → result B) (l : list A) : result (list B) :=
  match l with
  | [] => Return []
  | x :: l =>
      y ← f x;
      ys ← comprehension f l;
      Return (y :: ys)
  end.

(** [sum(iterable)]: a left fold of [+] that starts from [0]. *)
Definition sum (xs : list Z) : Z := foldl Z.add 0 xs.

(** ** Python text: characters, [repr], [str], [float] *)

Definition NUL : ascii := "000".
Definition LF : ascii := "010".
Definition CR : ascii := "013".
Definition quote : ascii := "034".
Definition apostrophe : ascii := "039".
Definition backslash : ascii := "092".

Definition char_is (c d : ascii) : bool := bool_decide (c = d).

Fixpoint string_exists (p : ascii → bool) (s : string) : bool :=
  match s with
  | EmptyString => false
  | String c s => p c || string_exists p s
  end.

Fixpoint string_map (f : ascii → string) (s : string) : string :=
  match s with
  | EmptyString => EmptyString
  | String c s => f c +:+ string_map f s
  end.

(** [sep.join(parts)] *)
Fixpoint join (sep : string) (parts : list string) : string :=
  match parts with
  | [] => EmptyString
  | x :: rest =>
      match rest with
      | [] => x
      | _ => x +:+ sep +:+ join sep rest
      end
  end.

Definition hex_digit (n : N) : ascii :=
  ascii_of_N (if (n <? 10)%N then 48 + n else 87 + n)%N.

(** One character inside [repr(s)], for the quote character [q] in use. *)
Definition repr_char (q c : ascii) : string :=
  let n := N_of_ascii c in
  if char_is c q || char_is c backslash then String backslash (String c EmptyString)
  else if char_is c "009" then "\t"
  else if char_is c LF then "\n"
  else if char_is c CR then "\r"
  else if (n <? 32)%N || (127 <=? n)%N && (n <=? 160)%N || (n =? 173)%N then
    String backslash
      (String "x" (String (hex_digit (n / 16)) (String (hex_digit (n mod 16)) EmptyString)))
  else String c EmptyString.

(** [repr(s)] of a [str]: single quotes, unless the text has an apostrophe
    and no double quote. *)
Definition repr (s : string) : string :=
  let q := if string_exists (char_is apostrophe) s && negb (string_exists (char_is quote) s)
           then quote else apostrophe in
  String q (string_map (repr_char q) s) +:+ String q EmptyString.

(** [str(n)] of an [int] *)
Definition str (n : Z) : string := pretty n.

Definition is_digit (c : ascii) : bool :=
  let n := N_of_ascii c in (48 <=? n)%N && (n <=? 57)%N.

Definition digit_value (c : ascii) : Z := Z.of_N (N_of_ascii c) - 48.

(** The value of a run of decimal digits, continuing from [acc]. *)
Fixpoint digits_value_from (acc : Z) (digits : string) : Z :=
  match digits with
  | EmptyString => acc
  | String c digits => digits_value_from (10 * acc + digit_value c) digits
  end.

Definition digits_value (digits : string) : Z := digits_value_from 0 digits.

(** The characters [float] strips from both ends of its argument: ASCII
    white space, and the two other spaces among the code points below 256. *)
Definition float_space (c : ascii) : bool :=
  match N_of_ascii c with
  | 9 | 10 | 11 | 12 | 13 | 32 | 133 | 160 => true
  | _ => false
  end%N.

Fixpoint lstrip (s : string) : string :=
  match s with
  | EmptyString => EmptyString
  | String c s' => if float_space c then lstrip s' else s
  end.

Fixpoint rstrip (s : string) : string :=
  match s with
  | EmptyString => EmptyString
  | String c s' =>
      match rstrip s' with
      | EmptyString => if float_space c then EmptyString else String c EmptyString
      | r => String c r
      end
  end.

Definition strip (s : string) : string := rstrip (lstrip s).

(** Underscores may only stand between two digits; they are dropped. *)
Fixpoint remove_underscores (prev : ascii) (s : string) : option string :=
  match s with
  | EmptyString => if char_is prev "_" then None else Some EmptyString
  | String c s' =>
      if char_is c "_" then
        if is_digit prev then remove_underscores c s' else None
      else if char_is prev "_" && negb (is_digit c) then None
      else String c <$> remove_underscores c s'
  end.

(** The longest prefix of digits, and what follows it. *)
Fixpoint span_digits (s : string) : string * string :=
  match s with
  | EmptyString => (EmptyString, EmptyString)
  | String c s' =>
      if is_digit c then
        let '(digits, rest) := span_digits s' in (String c digits, rest)
      else (EmptyString, s)
  end.

Definition lower (c : ascii) : ascii :=
  let n := N_of_ascii c in
  if (65 <=? n)%N && (n <=? 90)%N then ascii_of_N (n + 32) else c.

Fixpoint lowercase (s : string) : string :=
  match s with
  | EmptyString => EmptyString
  | String c s => String (lower c) (lowercase s)
  end.

Definition take_sign (s : string) : bool * string :=
  match s with
  | String "+" rest => (false, rest)
  | String "-" rest => (true, rest)
  | _ => (false, s)
  end.

(** What a text accepted by [float] denotes. *)
Inductive float_literal :=
| Decimal (negative : bool) (int_part frac_part : string)
          (exponent : option (bool * string))
| Special.

(** The grammar of [float]'s argument once stripped and without
    underscores: an optional sign, then inf, infinity or nan in any case, or
    digits with an optional point and an optional exponent, at least one
    digit in the mantissa and in the exponent. *)
Definition parse_float_literal (s : string) : option float_literal :=
  let '(negative, body) := take_sign s in
  if bool_decide (lowercase body ∈ ["inf"; "infinity"; "nan"]) then Some Special
  else
    let '(int_part, after_int) := span_digits body in
    let '(frac_part, after_frac) :=
      match after_int with
      | String "." rest => span_digits rest
      | _ => (EmptyString, after_int)
      end in
    if bool_decide (int_part = EmptyString) && bool_decide (frac_part = EmptyString)
    then None
    else
      match after_frac with
      | EmptyString => Some (Decimal negative int_part frac_part None)
      | String e rest =>
          if char_is (lower e) "e" then
            let '(exp_negative, exp_body) := take_sign rest in
            let '(exp_digits, after_exp) := span_digits exp_body in
            if bool_decide (exp_digits = EmptyString)
               || negb (bool_decide (after_exp = EmptyString))
            then None
            else Some (Decimal negative int_part frac_part
                               (Some (exp_negative, exp_digits)))
          else None
      end.

(** [float(x)].  A text that is no float literal raises [ValueError]; an
    integer literal yields its value (binary64 rounds integers beyond
    2^53, which is not modelled); a literal with an exponent or a non-zero
    fraction digit, inf and nan denote numbers that are no integers and
    leave the embedding. *)
Definition float (x : value) : result Z :=
  match x with
  | VStr s =>
      match remove_underscores NUL (strip s) ≫= parse_float_literal with
      | None => Raise (ValueError ("could not convert string to float: " +:+ repr s))
      | Some Special => Raise (Unmodelled "float: inf or nan")
      | Some (Decimal negative int_part frac_part exponent) =>
          if bool_decide (exponent = None)
             && negb (string_exists (λ c, negb (char_is c "0")) frac_part)
          then Return (if negative then - digits_value int_part
                       else digits_value int_part)
          else Raise (Unmodelled "float: not an integer")
      end
  | VInt n => Return n
  | VBool b => Return (if b then 1 else 0)
  | _ => Raise (TypeError ("float() argument must be a string or a real number, not '"
                           +:+ type_name x +:+ "'"))
  end.

(** ** Python calls and iteration on values *)

(** [d[key]] *)
Fixpoint getitem (d : list (string * value)) (key : string) : result value :=
  match d with
  | [] => Raise (KeyError key)
  | (k, v) :: d => if bool_decide (k = key) then Return v else getitem d key
  end.

(** [d[key] = v]: an existing key keeps its place. *)
Fixpoint setitem (d : list (string * value)) (key : string) (v : value)
  : list (string * value) :=
  match d with
  | [] => [(key, v)]
  | (k, v') :: d =>
      if bool_decide (k = key) then (k, v) :: d else (k, v') :: setitem d key v
  end.

(** [iter(v)], as a [for] loop or a comprehension takes it. *)
Definition iter (v : value) : result (list value) :=
  match v with
  | VList items => Return items
  | VDict entries => Return (VStr ∘ fst <$> entries)
  | VStr s =>
      Return ((fix chars (s : string) : list value :=
                 match s with
                 | EmptyString => []
                 | String c s => VStr (String c EmptyString) :: chars s
                 end) s)
  | _ => Raise (TypeError ("'" +:+ type_name v +:+ "' object is not iterable"))
  end.

(** How CPython words the list of missing parameters. *)
Definition missing_message (missing : list string) : string :=
  let quoted := (λ p, "'" +:+ p +:+ "'") <$> missing in
  match quoted with
  | [a] => "missing 1 required positional argument: " +:+ a
  | [a; b] => "missing 2 required positional arguments: " +:+ a +:+ " and " +:+ b
  | _ => "missing " +:+ pretty (length quoted)
         +:+ " required positional arguments: "
         +:+ join ", " (take (length quoted - 1) quoted)
         +:+ ", and " +:+ default EmptyString (last quoted)
  end.

(** A call of [f] with the entries of a dict as keyword arguments, for a
    function whose parameters are [params], none
    with a default: the arguments in the order of the parameters.  A keyword
    that is no parameter is refused first, then missing parameters. *)
Definition bind_keywords (f : string) (params : list string)
    (kwargs : list (string * value)) : result (list value) :=
  match filter (λ k, k ∉ params) kwargs.*1 with
  | k :: _ =>
      Raise (TypeError (f +:+ "() got an unexpected keyword argument '" +:+ k +:+ "'"))
  | [] =>
      match filter (λ p, p ∉ kwargs.*1) params with
      | [] => comprehension (getitem kwargs) params
      | missing => Raise (TypeError (f +:+ "() " +:+ missing_message missing))
      end
  end.

(** ** The csv module, excel dialect *)

Definition delimiter : ascii := ",".
Definition lineterminator : string := String CR (String LF EmptyString).

(** *** Writing *)

(** QUOTE_MINIMAL: a field is quoted when it holds the delimiter, the quote
    character or a character of the line terminator. *)
Definition needs_quotes (c : ascii) : bool :=
  char_is c delimiter || char_is c quote || string_exists (char_is c) lineterminator.

(** The characters of a field with every quote character doubled. *)
Definition double_quotes (field : string) : string :=
  string_map (λ c, if char_is c quote
                   then String quote (String quote EmptyString)
                   else String c EmptyString) field.

(** One field of a record: quoted if need be, with quote characters
    doubled. *)
Definition join_append (field : string) : string :=
  if string_exists needs_quotes field then
    String quote (double_quotes field) +:+ String quote EmptyString
  else field.

(** [writer.writerow(fields)] on texts: the line written.  A record of one
    empty field is written as a pair of quotes. *)
Definition writer_writerow (fields : list string) : string :=
  match fields with
  | [EmptyString] => String quote (String quote EmptyString) +:+ lineterminator
  | _ => join (String delimiter EmptyString) (join_append <$> fields) +:+ lineterminator
  end.

(** The text the writer makes of a field value: a [str] as it is, [None] as
    the empty text, anything else through [str()]. *)
Definition field_text (v : value) : result string :=
  match v with
  | VStr s => Return s
  | VNone => Return EmptyString
  | VInt n => Return (str n)
  | VBool b => Return (if b then "True" else "False")
  | _ => Raise (Unmodelled "str() of a list or dict")
  end.

(** [dict(pairs)] *)
Definition dict (pairs : list (string * value)) : list (string * value) :=
  foldl (λ d kv, setitem d kv.1 kv.2) [] pairs.

(** [DictWriter.writerow(rowdict)], with the defaults
    [extrasaction="raise"] and an empty text as [restval]. *)
Definition DictWriter_writerow (fieldnames : list string)
    (rowdict : list (string * value)) : result string :=
  match filter (λ k, k ∉ fieldnames) rowdict.*1 with
  | [] =>
      fields ← comprehension
        (λ key, field_text (match getitem rowdict key with
                            | Return v => v
                            | Raise _ => VStr EmptyString
                            end)) fieldnames;
      Return (writer_writerow fields)
  | wrong_fields =>
      Raise (ValueError ("dict contains fields not in fieldnames: "
                         +:+ join ", " (repr <$> wrong_fields)))
  end.

Definition DictWriter_writeheader (fieldnames : list string) : result string :=
  DictWriter_writerow fieldnames (dict (zip fieldnames (VStr <$> fieldnames))).

(** *** Reading *)

(** A file opened for reading without [newline] translates every CR LF and
    every other CR into LF. *)
Fixpoint universal_newlines (text : string) : string :=
  match text with
  | EmptyString => EmptyString
  | String c rest =>
      if char_is c CR then
        String LF
          match rest with
          | String d rest' =>
              if char_is d LF then universal_newlines rest' else universal_newlines rest
          | EmptyString => EmptyString
          end
      else String c (universal_newlines rest)
  end.

(** Iterating over a text file: its lines, each with its LF. *)
Fixpoint readlines (text : string) : list string :=
  match text with
  | EmptyString => []
  | String c rest =>
      if char_is c LF then String c EmptyString :: readlines rest
      else match readlines rest with
           | [] => [String c EmptyString]
           | line :: lines => String c line :: lines
           end
  end.

Inductive ParserState :=
| START_RECORD
| START_FIELD
| IN_FIELD
| IN_QUOTED_FIELD
| QUOTE_IN_QUOTED_FIELD
| EAT_CRNL.

Global Instance ParserState_eq_dec : EqDecision ParserState.
Proof. solve_decision. Defined.

Record Reader := mkReader {
  state : ParserState;
  fields : list string;
  field : string
}.

Definition parse_reset : Reader := mkReader START_RECORD [] EmptyString.

Definition set_state (s : ParserState) (self : Reader) : Reader :=
  mkReader s (fields self) (field self).

Definition parse_save_field (self : Reader) : Reader :=
  mkReader (state self) (fields self ++ [field self]) EmptyString.

Definition parse_add_char (c : ascii) (self : Reader) : Reader :=
  mkReader (state self) (fields self) (field self +:+ String c EmptyString).

Definition is_newline (c : ascii) : bool := char_is c LF || char_is c CR.

(** The reader is fed the characters of a line and then an end-of-line
    mark, written [None] here. *)
Definition parse_process_char (self : Reader) (c : option ascii) : result Reader :=
  let start_field : result Reader :=
    match c with
    | None => Return (set_state START_RECORD (parse_save_field self))
    | Some ch =>
        if is_newline ch then Return (set_state EAT_CRNL (parse_save_field self))
        else if char_is ch quote then Return (set_state IN_QUOTED_FIELD self)
        else if char_is ch delimiter then
          Return (set_state START_FIELD (parse_save_field self))
        else Return (set_state IN_FIELD (parse_add_char ch self))
    end in
  match state self with
  | START_RECORD =>
      match c with
      | None => Return self
      | Some ch =>
          if is_newline ch then Return (set_state EAT_CRNL self) else start_field
      end
  | START_FIELD => start_field
  | IN_FIELD =>
      match c with
      | None => Return (set_state START_RECORD (parse_save_field self))
      | Some ch =>
          if is_newline ch then Return (set_state EAT_CRNL (parse_save_field self))
          else if char_is ch delimiter then
            Return (set_state START_FIELD (parse_save_field self))
          else Return (parse_add_char ch self)
      end
  | IN_QUOTED_FIELD =>
      match c with
      | None => Return self
      | Some ch =>
          if char_is ch quote then Return (set_state QUOTE_IN_QUOTED_FIELD self)
          else Return (parse_add_char ch self)
      end
  | QUOTE_IN_QUOTED_FIELD =>
      match c with
      | None => Return (set_state START_RECORD (parse_save_field self))
      | Some ch =>
          if char_is ch quote then
            Return (set_state IN_QUOTED_FIELD (parse_add_char ch self))
          else if char_is ch delimiter then
            Return (set_state START_FIELD (parse_save_field self))
          else if is_newline ch then
            Return (set_state EAT_CRNL (parse_save_field self))
          else Return (set_state IN_FIELD (parse_add_char ch self))
      end
  | EAT_CRNL =>
      match c with
      | None => Return (set_state START_RECORD self)
      | Some ch =>
          if is_newline ch then Return self
          else Raise (csv_Error
            "new-line character seen in unquoted field - do you need to open the file in universal-newline mode?")
      end
  end.

(** One line through the parser: its characters, then the end-of-line
    mark. *)
Fixpoint parse_line (self : Reader) (line : string) : result Reader :=
  match line with
  | EmptyString => parse_process_char self None
  | String c line =>
      self' ← parse_process_char self (Some c);
      parse_line self' line
  end.

(** The records [csv.reader] yields over the lines, in order, and the
    exception that ends the iteration if there is one.  A record is
    complete when a line ends in state START_RECORD; when the lines run
    out inside a quoted field, what was read is yielded as the last
    record. *)
Fixpoint reader (self : Reader) (lines : list string)
  : list (list string) * option exn :=
  match lines with
  | [] =>
      if negb (bool_decide (field self = EmptyString))
         || bool_decide (state self = IN_QUOTED_FIELD)
      then ([fields (parse_save_field self)], None)
      else ([], None)
  | line :: lines =>
      match parse_line self line with
      | Raise e => ([], Some e)
      | Return self' =>
          if bool_decide (state self' = START_RECORD) then
            let '(records, error) := reader parse_reset lines in
            (fields self' :: records, error)
          else reader self' lines
      end
  end.

(** The dict [DictReader] makes of a record: the field names zipped with
    the fields, and [None] for the names a short record leaves over.  (The
    fields a long record has in excess go under the key [None], which no
    lookup by name finds.) *)
Definition DictReader_row (fieldnames row : list string) : list (string * value) :=
  foldl (λ d key, setitem d key VNone)
        (dict (zip fieldnames (VStr <$> row)))
        (drop (length row) fieldnames).

(** [csv.DictReader(f)]: the first record names the fields; empty records
    after it are skipped. *)
Definition DictReader (lines : list string)
  : list (list (string * value)) * option exn :=
  let '(records, error) := reader parse_reset lines in
  match records with
  | [] => ([], error)
  | fieldnames :: rows =>
      (DictReader_row fieldnames <$> filter (λ row, row ≠ []) rows, error)
  end.

(** A comprehension over an iterator that may raise after its last item. *)
Definition comprehension_over {A B} (f : A → result B)
    (source : list A * option exn) : result (list B) :=
  ys ← comprehension f source.1;
  match source.2 with
  | None => Return ys
  | Some e => Raise e
  end.

(** ** class Transaction *)

Module Transaction.

Record t := new {
  transaction_type : string;
  category : string;
  amount : Z
}.

Definition __init__ (transaction_type category : string) (amount : Z) : result t :=
  if negb (bool_decide (transaction_type ∈ ["income"; "expense"])) then
    Raise (ValueError "Type must be 'income' or 'expense'")
  else if amount <=? 0 then
    Raise (ValueError "Amount must be greater than 0")
  else
    Return (new transaction_type category amount).

Definition to_dict (self : t) : list (string * value) :=
  [ ("type", VStr (transaction_type self));
    ("category", VStr (category self));
    ("amount", VInt (amount self)) ].

(** The call [Transaction(transaction_type, category, amount)] on values
    as a file gives them.  The checks of [__init__] are those of Python on
    any value: [not in] compares with the two texts, [<=] is defined
    between numbers and raises [TypeError] otherwise.  Only [str], [str],
    [int] arguments can be stored. *)
Definition call (transaction_type category amount : value) : result t :=
  match transaction_type, category, amount with
  | VStr k, VStr c, VInt a => __init__ k c a
  | _, _, _ =>
      if negb match transaction_type with
              | VStr k => bool_decide (k ∈ ["income"; "expense"])
              | _ => false
              end
      then Raise (ValueError "Type must be 'income' or 'expense'")
      else
        match amount with
        | VInt a =>
            if a <=? 0 then Raise (ValueError "Amount must be greater than 0")
            else Raise (Unmodelled "category is not a str")
        | VBool b =>
            if (if b then 1 else 0) <=? 0
            then Raise (ValueError "Amount must be greater than 0")
            else Raise (Unmodelled "amount is a bool")
        | _ =>
            Raise (TypeError ("'<=' not supported between instances of '"
                              +:+ type_name amount +:+ "' and 'int'"))
        end
  end.

(** The call of [Transaction] with the entries of [item] as keyword
    arguments. *)
Definition call_keywords (item : value) : result t :=
  match item with
  | VDict kwargs =>
      args ← bind_keywords "Transaction.__init__"
               ["transaction_type"; "category"; "amount"] kwargs;
      match args with
      | [transaction_type; category; amount] =>
          call transaction_type category amount
      | _ => Raise (Unmodelled "unreachable")
      end
  | _ =>
      Raise (TypeError ("__main__.Transaction() argument after ** must be a mapping, not "
                        +:+ type_name item))
  end.

End Transaction.

(** ** The file system *)

(** What a file holds: text, or the text [json.dump] writes for a document,
    kept as that document ([json.load] gives it back). *)
Inductive contents :=
| Text (characters : string)
| Json (document : value).

(** A path names a file that can be opened, or one that [open] refuses. *)
Inductive file :=
| Regular (c : contents)
| Denied.

(** ** The world a method runs in *)

Module ExpenseTracker.

Record t := new { transactions : list Transaction.t }.

Definition __init__ : t := new [].

End ExpenseTracker.

Record World := mkWorld {
  self : ExpenseTracker.t;
  files : gmap string file;
  stdout : list string
}.

Definition M (A : Type) : Type := World → result A * World.

Definition ret {A} (a : A) : M A := λ w, (Return a, w).
Definition bind {A B} (k : A → M B) (m : M A) : M B :=
  λ w, match m w with
       | (Return a, w') => k a w'
       | (Raise e, w') => (Raise e, w')
       end.
Definition lift {A} (r : result A) : M A := λ w, (r, w).
Global Instance M_ret : MRet M := @ret.
Global Instance M_mbind : MBind M := @bind.

Definition get_transactions : M (list Transaction.t) :=
  λ w, (Return (ExpenseTracker.transactions (self w)), w).
Definition set_transactions (ts : list Transaction.t) : M unit :=
  λ w, (Return (), mkWorld (ExpenseTracker.new ts) (files w) (stdout w)).
Definition print (line : string) : M unit :=
  λ w, (Return (), mkWorld (self w) (files w) (stdout w ++ [line])).

(** [try: body except FileNotFoundError: handler] *)
Definition try_except_FileNotFoundError {A} (body handler : M A) : M A :=
  λ w, match body w with
       | (Raise (FileNotFoundError _), w') => handler w'
       | r => r
       end.

(** ** Files: [open], [write], [json.dump], [json.load] *)

(** [open(filename, "r")] *)
Definition open_r (filename : string) : M contents :=
  λ w, match files w !! filename with
       | None => (Raise (FileNotFoundError filename), w)
       | Some Denied => (Raise (PermissionError filename), w)
       | Some (Regular c) => (Return c, w)
       end.

(** [open(filename, "w")]: the file is created or emptied. *)
Definition open_w (filename : string) : M unit :=
  λ w, match files w !! filename with
       | Some Denied => (Raise (PermissionError filename), w)
       | _ => (Return (),
               mkWorld (self w) (<[filename := Regular (Text EmptyString)]> (files w))
                       (stdout w))
       end.

(** Writing [text] at the end of a file open for writing. *)
Definition write (filename text : string) : M unit :=
  λ w, match files w !! filename with
       | Some (Regular (Text before)) =>
           (Return (),
            mkWorld (self w) (<[filename := Regular (Text (before +:+ text))]> (files w))
                    (stdout w))
       | _ => (Raise (Unmodelled "write to a file that is not open"), w)
       end.

(** [json.dump(document, f)] into a file just opened for writing. *)
Definition json_dump (document : value) (filename : string) : M unit :=
  λ w, (Return (),
        mkWorld (self w) (<[filename := Regular (Json document)]> (files w)) (stdout w)).

Definition json_space (c : ascii) : bool :=
  bool_decide (c ∈ [" "; "009"; LF; CR]%char).

Fixpoint skip_json_space (s : string) : string :=
  match s with
  | EmptyString => EmptyString
  | String c rest => if json_space c then skip_json_space rest else s
  end.

(** Whether the decoder finds the start of a value: a string, an object,
    an array, one of the literals, or a number. *)
Definition json_value_starts (s : string) : bool :=
  match s with
  | EmptyString => false
  | String c rest =>
      is_digit c
      || bool_decide (c ∈ [quote; "{"; "["]%char)
      || (char_is c "-" && match rest with
                           | String d _ => is_digit d
                           | EmptyString => false
                           end)
      || existsb (λ literal, String.prefix literal s)
           ["null"; "true"; "false"; "NaN"; "Infinity"; "-Infinity"]
  end.

(** [json.load(f)].  A document written by [json.dump] is read back.  Of
    other text only the first step of the decoder is modelled: when no
    value starts after the leading white space it raises
    [JSONDecodeError]. *)
Definition json_load (c : contents) : result value :=
  match c with
  | Json document => Return document
  | Text s =>
      if json_value_starts (skip_json_space s)
      then Raise (Unmodelled "json.load of text")
      else Raise (JSONDecodeError "Expecting value")
  end.

(** The characters of a file read as text. *)
Definition read (c : contents) : result string :=
  match c with
  | Text s => Return s
  | Json _ => Raise (Unmodelled "reading the text of a JSON document")
  end.

(** [for x in xs: body(x)] *)
Fixpoint for_each {A} (xs : list A) (body : A → M unit) : M unit :=
  match xs with
  | [] => ret ()
  | x :: xs => body x;; for_each xs body
  end.

(** ** class ExpenseTracker: the in-memory operations *)

Definition add_transaction (transaction_type category : string) (amount : Z) : M unit :=
  transaction ← lift (Transaction.__init__ transaction_type category amount);
  ts ← get_transactions;
  set_transactions (ts ++ [transaction]).

Definition calculate_balance : M Z :=
  ts ← get_transactions;
  let income :=
    sum (Transaction.amount <$>
         filter (λ t, Transaction.transaction_type t = "income") ts) in
  let expenses :=
    sum (Transaction.amount <$>
         filter (λ t, Transaction.transaction_type t = "expense") ts) in
  ret (income - expenses).

(** One turn of the loop of [summary_by_category]. *)
Definition summary_step (summary : gmap string Z) (t : Transaction.t) : gmap string Z :=
  if bool_decide (Transaction.transaction_type t = "expense") then
    <[ Transaction.category t :=
         default 0 (summary !! Transaction.category t) + Transaction.amount t ]> summary
  else summary.

Definition summary_by_category : M (gmap string Z) :=
  ts ← get_transactions;
  ret (foldl summary_step ∅ ts).

(** ** class ExpenseTracker: saving and loading *)

Definition save_json (filename : string) : M unit :=
  open_w filename;;
  ts ← get_transactions;
  json_dump (VList (VDict ∘ Transaction.to_dict <$> ts)) filename;;
  print ("Data saved to " +:+ filename).

Definition load_json (filename : string) : M unit :=
  try_except_FileNotFoundError
    (f ← open_r filename;
     data ← lift (json_load f);
     items ← lift (iter data);
     ts ← lift (comprehension Transaction.call_keywords items);
     set_transactions ts;;
     print ("Data loaded from " +:+ filename))
    (print "JSON file not found. Starting with empty list.";;
     set_transactions []).

Definition save_csv (filename : string) : M unit :=
  open_w filename;;
  let fieldnames := ["type"; "category"; "amount"] in
  header ← lift (DictWriter_writeheader fieldnames);
  write filename header;;
  ts ← get_transactions;
  for_each ts (λ t,
    line ← lift (DictWriter_writerow fieldnames (Transaction.to_dict t));
    write filename line);;
  print ("Data saved to " +:+ filename).

(** The element of the comprehension in [load_csv]:
    [Transaction(row["type"], row["category"], float(row["amount"]))],
    arguments evaluated from left to right, then the call. *)
Definition load_csv_row (row : list (string * value)) : result Transaction.t :=
  transaction_type ← getitem row "type";
  category ← getitem row "category";
  amount_text ← getitem row "amount";
  amount ← float amount_text;
  Transaction.call transaction_type category (VInt amount).

Definition load_csv (filename : string) : M unit :=
  try_except_FileNotFoundError
    (f ← open_r filename;
     text ← lift (read f);
     let reader := DictReader (readlines (universal_newlines text)) in
     ts ← lift (comprehension_over load_csv_row reader);
     set_transactions ts;;
     print ("Data loaded from " +:+ filename))
    (print "CSV file not found. Starting with empty list.";;
     set_transactions []).

(** ** The Spanish variant of the record

    The source file holds the program a second time with Spanish names
    (class Movimiento, class ControlGastos).  Only the record and its JSON
    decoding are embedded, to compare them with the English ones: here
    [to_dict] uses the names of the parameters of [__init__]. *)

Module Movimiento.

Record t := new {
  tipo : string;
  categoria : string;
  monto : Z
}.

Definition __init__ (tipo categoria : string) (monto : Z) : result t :=
  if negb (bool_decide (tipo ∈ ["ingreso"; "gasto"])) then
    Raise (ValueError "El tipo debe ser 'ingreso' o 'gasto'")
  else if monto <=? 0 then
    Raise (ValueError "El monto debe ser mayor a 0")
  else
    Return (new tipo categoria monto).

Definition to_dict (self : t) : list (string * value) :=
  [ ("tipo", VStr (tipo self));
    ("categoria", VStr (categoria self));
    ("monto", VInt (monto self)) ].

(** The call [Movimiento(tipo, categoria, monto)] on values as a file gives
    them, as for [Transaction.call]. *)
Definition call (tipo categoria monto : value) : result t :=
  match tipo, categoria, monto with
  | VStr k, VStr c, VInt a => __init__ k c a
  | _, _, _ =>
      if negb match tipo with
              | VStr k => bool_decide (k ∈ ["ingreso"; "gasto"])
              | _ => false
              end
      then Raise (ValueError "El tipo debe ser 'ingreso' o 'gasto'")
      else
        match monto with
        | VInt a =>
            if a <=? 0 then Raise (ValueError "El monto debe ser mayor a 0")
            else Raise (Unmodelled "categoria is not a str")
        | VBool b =>
            if (if b then 1 else 0) <=? 0
            then Raise (ValueError "El monto debe ser mayor a 0")
            else Raise (Unmodelled "monto is a bool")
        | _ =>
            Raise (TypeError ("'<=' not supported between instances of '"
                              +:+ type_name monto +:+ "' and 'int'"))
        end
  end.

(** The call of [Movimiento] with the entries of [item] as keyword
    arguments, the element of the comprehension in [cargar_json]. *)
Definition call_keywords (item : value) : result t :=
  match item with
  | VDict kwargs =>
      args ← bind_keywords "Movimiento.__init__"
               ["tipo"; "categoria"; "monto"] kwargs;
      match args with
      | [tipo; categoria; monto] => call tipo categoria monto
      | _ => Raise (Unmodelled "unreachable")
      end
  | _ =>
      Raise (TypeError ("__main__.Movimiento() argument after ** must be a mapping, not "
                        +:+ type_name item))
  end.

Definition valid (m : t) : Prop :=
  (tipo m = "ingreso" ∨ tipo m = "gasto") ∧ 0 < monto m.

End Movimiento.

(** ** class ControlGastos, the Spanish variant of the tracker *)

Module ControlGastos.

Record t := new { movimientos : list Movimiento.t }.

Definition __init__ : t := new [].

End ControlGastos.

(** The Spanish program in its own world: the same file system and output,
    a [ControlGastos] object in the place of the tracker. *)
Module Es.

Record World := mkWorld {
  self : ControlGastos.t;
  files : gmap string file;
  stdout : list string
}.

Definition M (A : Type) : Type := World → result A * World.

Definition ret {A} (a : A) : M A := λ w, (Return a, w).
Definition bind {A B} (k : A → M B) (m : M A) : M B :=
  λ w, match m w with
       | (Return a, w') => k a w'
       | (Raise e, w') => (Raise e, w')
       end.
Definition lift {A} (r : result A) : M A := λ w, (r, w).
Global Instance M_ret : MRet M := @ret.
Global Instance M_mbind : MBind M := @bind.

Definition get_movimientos : M (list Movimiento.t) :=
  λ w, (Return (ControlGastos.movimientos (self w)), w).
Definition set_movimientos (ms : list Movimiento.t) : M unit :=
  λ w, (Return (), mkWorld (ControlGastos.new ms) (files w) (stdout w)).
Definition print (line : string) : M unit :=
  λ w, (Return (), mkWorld (self w) (files w) (stdout w ++ [line])).

Definition try_except_FileNotFoundError {A} (body handler : M A) : M A :=
  λ w, match body w with
       | (Raise (FileNotFoundError _), w') => handler w'
       | r => r
       end.

Definition open_r (archivo : string) : M contents :=
  λ w, match files w !! archivo with
       | None => (Raise (FileNotFoundError archivo), w)
       | Some Denied => (Raise (PermissionError archivo), w)
       | Some (Regular c) => (Return c, w)
       end.

Definition open_w (archivo : string) : M unit :=
  λ w, match files w !! archivo with
       | Some Denied => (Raise (PermissionError archivo), w)
       | _ => (Return (),
               mkWorld (self w) (<[archivo := Regular (Text EmptyString)]> (files w))
                       (stdout w))
       end.

Definition write (archivo text : string) : M unit :=
  λ w, match files w !! archivo with
       | Some (Regular (Text before)) =>
           (Return (),
            mkWorld (self w) (<[archivo := Regular (Text (before +:+ text))]> (files w))
                    (stdout w))
       | _ => (Raise (Unmodelled "write to a file that is not open"), w)
       end.

Definition json_dump (document : value) (archivo : string) : M unit :=
  λ w, (Return (),
        mkWorld (self w) (<[archivo := Regular (Json document)]> (files w)) (stdout w)).

Fixpoint for_each {A} (xs : list A) (body : A → M unit) : M unit :=
  match xs with
  | [] => ret ()
  | x :: xs => body x;; for_each xs body
  end.


Definition calcular_saldo : M Z :=
  ms ← get_movimientos;
  let ingresos :=
    sum (Movimiento.monto <$> filter (λ m, Movimiento.tipo m = "ingreso") ms) in
  let gastos :=
    sum (Movimiento.monto <$> filter (λ m, Movimiento.tipo m = "gasto") ms) in
  ret (ingresos - gastos).

(** One turn of the loop of [resumen_por_categoria]. *)
Definition resumen_paso (resumen : gmap string Z) (m : Movimiento.t) : gmap string Z :=
  if bool_decide (Movimiento.tipo m = "gasto") then
    <[ Movimiento.categoria m :=
         default 0 (resumen !! Movimiento.categoria m) + Movimiento.monto m ]> resumen
  else resumen.

Definition resumen_por_categoria : M (gmap string Z) :=
  ms ← get_movimientos;
  ret (foldl resumen_paso ∅ ms).

Definition guardar_json (archivo : string) : M unit :=
  open_w archivo;;
  ms ← get_movimientos;
  json_dump (VList (VDict ∘ Movimiento.to_dict <$> ms)) archivo;;
  print ("Datos guardados en " +:+ archivo).

Definition cargar_json (archivo : string) : M unit :=
  try_except_FileNotFoundError
    (f ← open_r archivo;
     data ← lift (json_load f);
     items ← lift (iter data);
     ms ← lift (comprehension Movimiento.call_keywords items);
     set_movimientos ms;;
     print ("Datos cargados desde " +:+ archivo))
    (print ("No se encontr" +:+ String "243"
              (" el archivo JSON. Iniciando con lista vac" +:+ String "237" "a."));;
     set_movimientos []).


(** The element of the comprehension in [cargar_csv]. *)
Definition cargar_csv_row (row : list (string * value)) : result Movimiento.t :=
  tipo ← getitem row "tipo";
  categoria ← getitem row "categoria";
  monto_text ← getitem row "monto";
  monto ← float monto_text;
  Movimiento.call tipo categoria (VInt monto).

Definition cargar_csv (archivo : string) : M unit :=
  try_except_FileNotFoundError
    (f ← open_r archivo;
     text ← lift (read f);
     let reader := DictReader (readlines (universal_newlines text)) in
     ms ← lift (comprehension_over cargar_csv_row reader);
     set_movimientos ms;;
     print ("Datos cargados desde " +:+ archivo))
    (print ("No se encontr" +:+ String "243"
              (" el archivo CSV. Iniciando con lista vac" +:+ String "237" "a."));;
     set_movimientos []).

End Es.

(** ** The vocabulary of the specification *)


Definition recognized_kind (kind : string) : Prop :=
  kind = "income" ∨ kind = "expense".

(** Written from the specification: the sum of [amount] over the entries of
    one kind. *)
Fixpoint total_of_kind (kind : string) (ledger : list Transaction.t) : Z :=
  match ledger with
  | [] => 0
  | t :: ledger =>
      (if bool_decide (Transaction.transaction_type t = kind)
       then Transaction.amount t else 0) + total_of_kind kind ledger
  end.

(** Written from the specification: the expense entries of one category. *)
Definition expenses_of_category (c : string) (ledger : list Transaction.t)
  : list Transaction.t :=
  filter (λ t, Transaction.transaction_type t = "expense"
               ∧ Transaction.category t = c) ledger.


(** The Transaction invariant. *)
Definition valid (t : Transaction.t) : Prop :=
  recognized_kind (Transaction.transaction_type t) ∧ 0 < Transaction.amount t.

(** The transaction sequence of the tracker. *)
Definition ledger (w : World) : list Transaction.t :=
  ExpenseTracker.transactions (self w).

(** The world with another transaction sequence and one more printed line. *)
Definition loaded (w : World) (ts : list Transaction.t) (line : string) : World :=
  mkWorld (ExpenseTracker.new ts) (files w) (stdout w ++ [line]).

(** The document [save_json] writes for a transaction sequence. *)
Definition json_document (ts : list Transaction.t) : value :=
  VList (VDict ∘ Transaction.to_dict <$> ts).

(** What [load_json] and [load_csv] make of the contents of a file. *)
Definition decode_json (c : contents) : result (list Transaction.t) :=
  data ← json_load c;
  items ← iter data;
  comprehension Transaction.call_keywords items.

Definition decode_csv (c : contents) : result (list Transaction.t) :=
  text ← read c;
  comprehension_over load_csv_row (DictReader (readlines (universal_newlines text))).

Definition is_FileNotFoundError (e : exn) : bool :=
  match e with
  | FileNotFoundError _ => true
  | _ => false
  end.



(** Texts made of decimal digits only. *)
Definition all_digits (s : string) : Prop :=
  string_exists (λ c, negb (is_digit c)) s = false.

(** Texts without a carriage return. *)
Definition no_CR (s : string) : Prop :=
  string_exists (λ c, char_is c CR) s = false.

(** The line [save_csv] writes for a transaction, and the whole text. *)
Definition csv_line (t : Transaction.t) : string :=
  writer_writerow [Transaction.transaction_type t; Transaction.category t;
                   str (Transaction.amount t)].

Definition csv_text (ts : list Transaction.t) : string :=
  writer_writerow ["type"; "category"; "amount"]
  +:+ foldr (λ t text, csv_line t +:+ text) EmptyString ts.

(** The record the reader is to find on the line of a transaction, and the
    dict [DictReader] is to make of it. *)
Definition csv_record (t : Transaction.t) : list string :=
  [Transaction.transaction_type t; Transaction.category t;
   str (Transaction.amount t)].

Definition csv_row (t : Transaction.t) : list (string * value) :=
  [("type", VStr (Transaction.transaction_type t));
   ("category", VStr (Transaction.category t));
   ("amount", VStr (str (Transaction.amount t)))].

(** A record put in front of what a reader yields. *)
Definition cons_record (record : list string)
    (rest : list (list string) * option exn) : list (list string) * option exn :=
  (record :: rest.1, rest.2).

(** Lines of text ended by LF, for writing down the contents of a file. *)
Definition unlines (lines : list string) : string :=
  foldr (λ line text, line +:+ String LF text) EmptyString lines.


(** ** Further vocabulary *)

(** The dict of a transaction under the names of the parameters of the
    constructor, the keys [Transaction( **item)] accepts. *)
Definition parameter_dict (t : Transaction.t) : list (string * value) :=
  [("transaction_type", VStr (Transaction.transaction_type t));
   ("category", VStr (Transaction.category t));
   ("amount", VInt (Transaction.amount t))].



(** The world of another session: another tracker over the same files and
    output. *)
Definition with_ledger (ts : list Transaction.t) (w : World) : World :=
  mkWorld (ExpenseTracker.new ts) (files w) (stdout w).

(** The movements of the Spanish tracker. *)
Definition libro (w : Es.World) : list Movimiento.t :=
  ControlGastos.movimientos (Es.self w).

(** The Spanish world with another sequence of movements and one more
    printed line. *)
Definition cargado (w : Es.World) (ms : list Movimiento.t) (line : string) : Es.World :=
  Es.mkWorld (ControlGastos.new ms) (Es.files w) (Es.stdout w ++ [line]).

(** A movement read as a transaction of the English variant: the two kinds
    are translated, any other text is no kind on either side. *)
Definition to_english (m : Movimiento.t) : Transaction.t :=
  Transaction.new
    (if bool_decide (Movimiento.tipo m = "ingreso") then "income"
     else if bool_decide (Movimiento.tipo m = "gasto") then "expense"
     else EmptyString)
    (Movimiento.categoria m) (Movimiento.monto m).




(** What [cargar_json] and [cargar_csv] make of the contents of a file. *)
Definition decodificar_json (c : contents) : result (list Movimiento.t) :=
  data ← json_load c;
  items ← iter data;
  comprehension Movimiento.call_keywords items.

Definition decodificar_csv (c : contents) : result (list Movimiento.t) :=
  text ← read c;
  comprehension_over Es.cargar_csv_row
    (DictReader (readlines (universal_newlines text))).

(** The two lines the Spanish loads print when no file has the name. *)
Definition no_encontrado_json : string :=
  "No se encontr" +:+ String "243"
    (" el archivo JSON. Iniciando con lista vac" +:+ String "237" "a.").

Definition no_encontrado_csv : string :=
  "No se encontr" +:+ String "243"
    (" el archivo CSV. Iniciando con lista vac" +:+ String "237" "a.").



(** * Proofs *)

Lemma sum_from (a : Z) (xs : list Z) : foldl Z.add a xs = a + sum xs.
Proof.
  unfold sum. revert a. induction xs as [|x xs IH]; intros a; simpl; [lia|].
  rewrite (IH (a + x)), (IH (0 + x)). lia.
Qed.

Lemma sum_cons (x : Z) (xs : list Z) : sum (x :: xs) = x + sum xs.
Proof. unfold sum at 1. simpl. rewrite sum_from. lia. Qed.

Lemma sum_app (xs ys : list Z) : sum (xs ++ ys) = sum xs + sum ys.
Proof.
  induction xs as [|x xs IH]; simpl; [reflexivity|].
  rewrite !sum_cons, IH. lia.
Qed.

Lemma sum_filter_kind (kind : string) (ledger : list Transaction.t) :
  sum (Transaction.amount <$>
       filter (λ t, Transaction.transaction_type t = kind) ledger)
  = total_of_kind kind ledger.
Proof.
  induction ledger as [|t ledger IH]; [reflexivity|].
  rewrite filter_cons. simpl. case_bool_decide as Hk.
  - rewrite decide_True by done. rewrite fmap_cons, sum_cons, IH. lia.
  - rewrite decide_False by done. rewrite IH. lia.
Qed.


Lemma recognized_kind_elem (kind : string) :
  kind ∈ ["income"; "expense"] ↔ recognized_kind kind.
Proof. unfold recognized_kind. set_solver. Qed.



Lemma add_transaction_runs (kind category : string) (amount : Z) (w : World) :
  add_transaction kind category amount w
  = match Transaction.__init__ kind category amount with
    | Return t =>
        (Return (), mkWorld (ExpenseTracker.new (ledger w ++ [t])) (files w) (stdout w))
    | Raise e => (Raise e, w)
    end.
Proof.
  unfold add_transaction, mbind, M_mbind, bind, lift, get_transactions,
    set_transactions.
  by destruct (Transaction.__init__ kind category amount).
Qed.

(** C4.  [add_transaction] either returns with exactly the new transaction
    appended after the unchanged earlier ones, or raises the constructor's
    exception and leaves the world exactly as it was. *)
Theorem add_transaction_spec (kind category : string) (amount : Z) (w : World) :
  (∃ t, Transaction.__init__ kind category amount = Return t
        ∧ add_transaction kind category amount w
          = (Return (),
             mkWorld (ExpenseTracker.new (ledger w ++ [t])) (files w) (stdout w)))
  ∨ (∃ e, Transaction.__init__ kind category amount = Raise e
          ∧ add_transaction kind category amount w = (Raise e, w)).
Proof.
  rewrite add_transaction_runs.
  destruct (Transaction.__init__ kind category amount) as [t|e]; eauto.
Qed.

Lemma calculate_balance_runs (w : World) :
  calculate_balance w
  = (Return (total_of_kind "income" (ledger w) - total_of_kind "expense" (ledger w)), w).
Proof.
  unfold calculate_balance, mbind, M_mbind, bind, get_transactions, ret, ledger.
  by rewrite !sum_filter_kind.
Qed.


(** *** The category summary *)

Lemma summary_lookup (ledger : list Transaction.t) (c : string) :
  foldl summary_step ∅ ledger !! c
  = match expenses_of_category c ledger with
    | [] => None
    | es => Some (sum (Transaction.amount <$> es))
    end.
Proof.
  induction ledger as [|t ledger IH] using rev_ind; [reflexivity|].
  rewrite foldl_snoc. unfold expenses_of_category in *.
  rewrite filter_app, filter_cons, filter_nil.
  unfold summary_step at 1. case_bool_decide as Hk.
  - destruct (decide (Transaction.category t = c)) as [->|Hc].
    + rewrite lookup_insert_eq, IH, decide_True by done.
      destruct (filter _ ledger) as [|e es]; [done|].
      simpl. f_equal.
      rewrite !sum_cons, fmap_app, sum_app, fmap_cons, sum_cons.
      change (sum (Transaction.amount <$> [])) with 0.
      change (list_fmap _ _ Transaction.amount es) with (Transaction.amount <$> es).
      lia.
    + rewrite lookup_insert_ne, IH, decide_False by naive_solver.
      by rewrite app_nil_r.
  - rewrite IH, decide_False by naive_solver. by rewrite app_nil_r.
Qed.

(** C6.  [summary_by_category] returns, without changing anything, the
    mapping that sends a category to the sum of the amounts of the expense
    entries carrying exactly that text, and has no key for a category
    without expense entries; with no expense at all the mapping is empty. *)
Theorem summary_by_category_spec (w : World) :
  ∃ summary : gmap string Z,
    summary_by_category w = (Return summary, w)
    ∧ (∀ c : string,
         summary !! c
         = match expenses_of_category c (ledger w) with
           | [] => None
           | es => Some (sum (Transaction.amount <$> es))
           end)
    ∧ ((∀ t, t ∈ ledger w → Transaction.transaction_type t ≠ "expense") →
       summary = ∅).
Proof.
  unfold ledger. eexists. split; [reflexivity|]. split.
  - intros c. apply summary_lookup.
  - intros Hno. apply map_eq. intros c.
    rewrite summary_lookup, lookup_empty.
    destruct (expenses_of_category c _) as [|e es] eqn:He; [done|].
    assert (e ∈ expenses_of_category c (ExpenseTracker.transactions (self w)))
      as [[Hk _] Hin]%list_elem_of_filter by (rewrite He; left).
    by destruct (Hno e Hin).
Qed.




(** *** Running monadic code *)

Ltac run :=
  unfold try_except_FileNotFoundError, mbind, M_mbind, bind, lift, ret,
    get_transactions, set_transactions, print, open_r, open_w, write, json_dump;
  simpl.



(** *** JSON *)

Lemma save_json_runs (filename : string) (w : World) :
  files w !! filename ≠ Some Denied →
  save_json filename w
  = (Return (),
     mkWorld (self w)
       (<[filename := Regular (Json (json_document (ledger w)))]> (files w))
       (stdout w ++ ["Data saved to " +:+ filename])).
Proof.
  intros Hf. unfold save_json. run.
  destruct (files w !! filename) as [[c|]|] eqn:Hlook; try done; simpl;
    by rewrite insert_insert_eq.
Qed.

Lemma call_keywords_to_dict (t : Transaction.t) :
  Transaction.call_keywords (VDict (Transaction.to_dict t))
  = Raise (TypeError
      "Transaction.__init__() got an unexpected keyword argument 'type'").
Proof. reflexivity. Qed.

(** C1, the defect.  After [save_json] of a ledger that is not empty,
    [load_json] of the same file raises [TypeError]: the saved objects are
    keyed "type", which is no parameter of the constructor.  The ledger
    stays as it was, nothing is loaded. *)
Theorem save_json_load_json_raises (filename : string) (w : World)
    (t : Transaction.t) (ts : list Transaction.t) :
  files w !! filename ≠ Some Denied →
  ledger w = t :: ts →
  ∃ w1, save_json filename w = (Return (), w1)
        ∧ ledger w1 = ledger w
        ∧ load_json filename w1
          = (Raise (TypeError
               "Transaction.__init__() got an unexpected keyword argument 'type'"),
             w1).
Proof.
  intros Hf Hl. eexists. split; [by apply save_json_runs|]. split; [done|].
  unfold load_json. run. rewrite lookup_insert_eq. simpl.
  unfold json_document. rewrite Hl. reflexivity.
Qed.

Lemma save_json_load_json_raises_witness :
  let w := mkWorld (ExpenseTracker.new [Transaction.new "income" "salary" 2500]) ∅ [] in
  files w !! "transactions.json" ≠ Some Denied
  ∧ ledger w = [Transaction.new "income" "salary" 2500]
  ∧ ∃ w1, save_json "transactions.json" w = (Return (), w1)
          ∧ ledger w1 = ledger w
          ∧ load_json "transactions.json" w1
            = (Raise (TypeError
                 "Transaction.__init__() got an unexpected keyword argument 'type'"),
               w1).
Proof.
  intros w.
  assert (H1 : files w !! "transactions.json" ≠ Some Denied)
    by (simpl; rewrite lookup_empty; discriminate).
  assert (H2 : ledger w = [Transaction.new "income" "salary" 2500])
    by reflexivity.
  split; [exact H1|]. split; [exact H2|].
  exact (save_json_load_json_raises "transactions.json" w
           (Transaction.new "income" "salary" 2500) [] H1 H2).
Defined.

(** The empty ledger is the one case in which the JSON round trip works. *)
Lemma save_json_load_json_empty (filename : string) (w : World) :
  files w !! filename ≠ Some Denied →
  ledger w = [] →
  ∃ w1 w2, save_json filename w = (Return (), w1)
           ∧ load_json filename w1 = (Return (), w2)
           ∧ ledger w2 = [].
Proof.
  intros Hf Hl. eexists _, _. split; [by apply save_json_runs|].
  unfold load_json. run. rewrite lookup_insert_eq. simpl.
  unfold json_document. rewrite Hl. simpl. done.
Qed.

(** The Spanish variant does what the English one misses: the objects
    [guardar_json] dumps are accepted by the comprehension of
    [cargar_json], which rebuilds the sequence. *)
Lemma Movimiento_json_roundtrip (ms : list Movimiento.t) :
  Forall Movimiento.valid ms →
  comprehension Movimiento.call_keywords (VDict ∘ Movimiento.to_dict <$> ms)
  = Return ms.
Proof.
  induction 1 as [|m ms [Hk Ha] _ IH]; [done|].
  assert (Hm : Movimiento.call_keywords (VDict (Movimiento.to_dict m)) = Return m);
    [|rewrite fmap_cons; cbn [comprehension]; rewrite IH;
      unfold compose at 1; by rewrite Hm].
  unfold Movimiento.call_keywords, Movimiento.to_dict.
  change (bind_keywords _ _ _)
    with (Return [VStr (Movimiento.tipo m); VStr (Movimiento.categoria m);
                  VInt (Movimiento.monto m)] : result (list value)).
  simpl. unfold Movimiento.__init__.
  rewrite bool_decide_eq_true_2 by set_solver. simpl.
  destruct (Z.leb_spec (Movimiento.monto m) 0); [lia|]. by destruct m.
Qed.

(** *** Which exceptions the decoding steps raise *)

Lemma getitem_raises d key e : getitem d key = Raise e → e = KeyError key.
Proof.
  induction d as [|[k v] d IH]; simpl; [by intros [= <-]|].
  case_bool_decide; [done|auto].
Qed.

Lemma comprehension_raises {A B} (P : exn → Prop) (f : A → result B) l e :
  (∀ x e, f x = Raise e → P e) → comprehension f l = Raise e → P e.
Proof.
  intros Hf. induction l as [|x l IH]; simpl; [done|].
  destruct (f x) as [y|e'] eqn:Hx; simpl.
  - destruct (comprehension f l) as [ys|e']; simpl; [done|].
    intros [= <-]. auto.
  - intros [= <-]. eauto.
Qed.

Lemma float_raises x e : float x = Raise e → is_FileNotFoundError e = false.
Proof.
  unfold float. intros H. repeat case_match; simplify_eq; done.
Qed.

Lemma call_raises k c a e :
  Transaction.call k c a = Raise e → is_FileNotFoundError e = false.
Proof.
  unfold Transaction.call, Transaction.__init__. intros H.
  repeat case_match; simplify_eq; done.
Qed.

Lemma bind_keywords_raises f params kwargs e :
  bind_keywords f params kwargs = Raise e → is_FileNotFoundError e = false.
Proof.
  unfold bind_keywords. intros H. repeat case_match; simplify_eq; try done.
  eapply (comprehension_raises (λ e, is_FileNotFoundError e = false)); [|done].
  by intros x e' ->%getitem_raises.
Qed.

Lemma call_keywords_raises item e :
  Transaction.call_keywords item = Raise e → is_FileNotFoundError e = false.
Proof.
  unfold Transaction.call_keywords. intros H.
  destruct item; simplify_eq; try done.
  destruct (bind_keywords _ _ _) as [args|e'] eqn:Hb; simpl in H.
  - repeat case_match; simplify_eq; eauto using call_raises.
  - simplify_eq. eauto using bind_keywords_raises.
Qed.

Lemma load_csv_row_raises row e :
  load_csv_row row = Raise e → is_FileNotFoundError e = false.
Proof.
  unfold load_csv_row. intros H.
  destruct (getitem row "type") as [k|e1] eqn:H1; simpl in H;
    [|simplify_eq; by apply getitem_raises in H1 as ->].
  destruct (getitem row "category") as [c|e2] eqn:H2; simpl in H;
    [|simplify_eq; by apply getitem_raises in H2 as ->].
  destruct (getitem row "amount") as [a|e3] eqn:H3; simpl in H;
    [|simplify_eq; by apply getitem_raises in H3 as ->].
  destruct (float a) as [n|e4] eqn:H4; simpl in H;
    [|simplify_eq; eauto using float_raises].
  eauto using call_raises.
Qed.

Lemma parse_process_char_raises self c e :
  parse_process_char self c = Raise e → ∃ msg, e = csv_Error msg.
Proof.
  unfold parse_process_char. intros H. repeat case_match; simplify_eq; eauto.
Qed.

Lemma parse_line_raises line : ∀ self e,
  parse_line self line = Raise e → ∃ msg, e = csv_Error msg.
Proof.
  induction line as [|c line IH]; intros self e; simpl.
  - apply parse_process_char_raises.
  - destruct (parse_process_char self (Some c)) as [self'|e'] eqn:Hc; simpl.
    + apply IH.
    + intros [= <-]. eauto using parse_process_char_raises.
Qed.

Lemma reader_raises lines : ∀ self e,
  (reader self lines).2 = Some e → ∃ msg, e = csv_Error msg.
Proof.
  induction lines as [|line lines IH]; intros self e; simpl.
  - by case_match.
  - destruct (parse_line self line) as [self'|e'] eqn:Hl; simpl.
    + case_bool_decide; [|apply IH].
      destruct (reader parse_reset lines) as [records error] eqn:Hr. simpl.
      intros ->. apply (IH parse_reset). by rewrite Hr.
    + intros [= <-]. eauto using parse_line_raises.
Qed.

Lemma DictReader_raises lines e :
  (DictReader lines).2 = Some e → ∃ msg, e = csv_Error msg.
Proof.
  unfold DictReader.
  destruct (reader parse_reset lines) as [records error] eqn:Hr.
  intros H. apply (reader_raises lines parse_reset). rewrite Hr.
  by destruct records.
Qed.

Lemma decode_json_raises c e :
  decode_json c = Raise e → is_FileNotFoundError e = false.
Proof.
  unfold decode_json. intros H.
  destruct (json_load c) as [data|e1] eqn:H1; simpl in H.
  - destruct (iter data) as [items|e2] eqn:H2; simpl in H.
    + eapply (comprehension_raises (λ e, is_FileNotFoundError e = false));
        [|done]. apply call_keywords_raises.
    + simplify_eq. unfold iter in H2. by repeat case_match; simplify_eq.
  - simplify_eq. unfold json_load in H1. by repeat case_match; simplify_eq.
Qed.

Lemma decode_csv_raises c e :
  decode_csv c = Raise e → is_FileNotFoundError e = false.
Proof.
  unfold decode_csv, comprehension_over. intros H.
  destruct (read c) as [text|e1] eqn:H1; simpl in H.
  - destruct (comprehension _ _) as [ys|e2] eqn:H2; simpl in H.
    + destruct (DictReader _).2 as [e3|] eqn:H3; [|done]. simplify_eq.
      by apply DictReader_raises in H3 as [msg ->].
    + simplify_eq.
      eapply (comprehension_raises (λ e, is_FileNotFoundError e = false));
        [|done]. apply load_csv_row_raises.
  - injection H as <-. destruct c; simpl in H1; by simplify_eq.
Qed.

(** *** Loading *)

Lemma load_json_absent filename w :
  files w !! filename = None →
  load_json filename w
  = (Return (), loaded w [] "JSON file not found. Starting with empty list.").
Proof. intros H. unfold load_json. run. by rewrite H. Qed.

Lemma load_csv_absent filename w :
  files w !! filename = None →
  load_csv filename w
  = (Return (), loaded w [] "CSV file not found. Starting with empty list.").
Proof. intros H. unfold load_csv. run. by rewrite H. Qed.

Lemma load_json_denied filename w :
  files w !! filename = Some Denied →
  load_json filename w = (Raise (PermissionError filename), w).
Proof. intros H. unfold load_json. run. by rewrite H. Qed.

Lemma load_csv_denied filename w :
  files w !! filename = Some Denied →
  load_csv filename w = (Raise (PermissionError filename), w).
Proof. intros H. unfold load_csv. run. by rewrite H. Qed.

Lemma load_json_present filename w c :
  files w !! filename = Some (Regular c) →
  load_json filename w
  = match decode_json c with
    | Return ts => (Return (), loaded w ts ("Data loaded from " +:+ filename))
    | Raise e => (Raise e, w)
    end.
Proof.
  intros H. pose proof (decode_json_raises c) as Hfnf.
  unfold load_json, decode_json in *. run. rewrite H. simpl.
  destruct (json_load c) as [data|e]; simpl in *;
    [|specialize (Hfnf e eq_refl); by destruct e].
  destruct (iter data) as [items|e]; simpl in *;
    [|specialize (Hfnf e eq_refl); by destruct e].
  destruct (comprehension _ items) as [ts|e]; simpl in *;
    [done|specialize (Hfnf e eq_refl); by destruct e].
Qed.

Lemma load_csv_present filename w c :
  files w !! filename = Some (Regular c) →
  load_csv filename w
  = match decode_csv c with
    | Return ts => (Return (), loaded w ts ("Data loaded from " +:+ filename))
    | Raise e => (Raise e, w)
    end.
Proof.
  intros H. pose proof (decode_csv_raises c) as Hfnf.
  unfold load_csv, decode_csv in *. run. rewrite H. simpl.
  destruct (read c) as [text|e]; simpl in *;
    [|specialize (Hfnf e eq_refl); by destruct e].
  destruct (comprehension_over _ _) as [ts|e]; simpl in *;
    [done|specialize (Hfnf e eq_refl); by destruct e].
Qed.

(** C7.  When no file has the name, both loads return normally with the
    ledger reset to empty and a line printed that says so.  When a file
    has the name, a load either returns having printed another line, or
    raises and leaves the world untouched: an exception of the decoder
    (parse error, malformed record) and the refusal of [open] reach the
    caller, they are never turned into the file-absent outcome. *)
Theorem load_absent_is_not_failure (filename : string) (w : World) :
  (files w !! filename = None →
     load_json filename w
     = (Return (), loaded w [] "JSON file not found. Starting with empty list.")
     ∧ load_csv filename w
       = (Return (), loaded w [] "CSV file not found. Starting with empty list."))
  ∧ (files w !! filename ≠ None →
       ((∃ ts, load_json filename w
               = (Return (), loaded w ts ("Data loaded from " +:+ filename)))
        ∨ (∃ e, is_FileNotFoundError e = false
                ∧ load_json filename w = (Raise e, w)))
       ∧ ((∃ ts, load_csv filename w
                 = (Return (), loaded w ts ("Data loaded from " +:+ filename)))
          ∨ (∃ e, is_FileNotFoundError e = false
                  ∧ load_csv filename w = (Raise e, w))))
  ∧ "Data loaded from " +:+ filename
    ≠ "JSON file not found. Starting with empty list."
  ∧ "Data loaded from " +:+ filename
    ≠ "CSV file not found. Starting with empty list."
  ∧ (∀ c e, files w !! filename = Some (Regular c) →
       decode_json c = Raise e → load_json filename w = (Raise e, w))
  ∧ (∀ c e, files w !! filename = Some (Regular c) →
       decode_csv c = Raise e → load_csv filename w = (Raise e, w))
  ∧ (files w !! filename = Some Denied →
       load_json filename w = (Raise (PermissionError filename), w)
       ∧ load_csv filename w = (Raise (PermissionError filename), w)).
Proof.
  split_and!.
  - intros H. split; [by apply load_json_absent|by apply load_csv_absent].
  - intros H. destruct (files w !! filename) as [[c|]|] eqn:Hf; [| |done].
    + rewrite (load_json_present _ _ c Hf), (load_csv_present _ _ c Hf).
      split.
      * destruct (decode_json c) as [ts|e] eqn:Hd; [eauto|].
        right. exists e. eauto using decode_json_raises.
      * destruct (decode_csv c) as [ts|e] eqn:Hd; [eauto|].
        right. exists e. eauto using decode_csv_raises.
    + rewrite (load_json_denied _ _ Hf), (load_csv_denied _ _ Hf).
      split; right; exists (PermissionError filename); done.
  - done.
  - done.
  - intros c e Hf Hd. by rewrite (load_json_present _ _ c Hf), Hd.
  - intros c e Hf Hd. by rewrite (load_csv_present _ _ c Hf), Hd.
  - intros Hf. by rewrite (load_json_denied _ _ Hf), (load_csv_denied _ _ Hf).
Qed.

(** On a file system without the file, both loads empty a ledger that
    held a transaction, and return. *)
Example load_absent_resets :
  let w := mkWorld (ExpenseTracker.new [Transaction.new "income" "salary" 2500]) ∅ [] in
  load_json "transactions.json" w
  = (Return (), mkWorld (ExpenseTracker.new []) ∅
                  ["JSON file not found. Starting with empty list."])
  ∧ load_csv "transactions.csv" w
    = (Return (), mkWorld (ExpenseTracker.new []) ∅
                    ["CSV file not found. Starting with empty list."]).
Proof.
  intros w. split.
  - by rewrite load_json_absent by apply lookup_empty.
  - by rewrite load_csv_absent by apply lookup_empty.
Qed.

(** A text that is no JSON at all: the decoder's exception reaches the
    caller of [load_json], with the ledger as it was. *)
Lemma load_json_parse_error :
  let w := mkWorld (ExpenseTracker.new [Transaction.new "income" "salary" 2500])
                   {[ "transactions.json" := Regular (Text "type,category,amount") ]} [] in
  load_json "transactions.json" w = (Raise (JSONDecodeError "Expecting value"), w).
Proof.
  intros w.
  rewrite (load_json_present _ _ (Text "type,category,amount"))
    by apply lookup_singleton_eq.
  reflexivity.
Qed.

(** *** A text that [float] refuses *)





(** *** The invariant *)

Lemma init_valid kind category amount t :
  Transaction.__init__ kind category amount = Return t → valid t.
Proof.
  unfold Transaction.__init__, valid.
  case_bool_decide as Hk; simpl; [|done].
  destruct (Z.leb_spec amount 0); [done|]. intros [= <-]. simpl.
  by rewrite <-recognized_kind_elem.
Qed.














(** *** CSV: the carriage return *)

(** C2, the defect.  [save_csv] opens the file with [newline=""] and
    writes a category holding a carriage return between quotes, as it is;
    [load_csv] opens the file without [newline], so the carriage return is
    read as a line feed.  Both calls return, and the ledger that comes back
    is not the one that was saved. *)
Theorem save_csv_load_csv_carriage_return :
  let t := Transaction.new "expense" (String "a" (String CR "b")) 5 in
  let w := mkWorld (ExpenseTracker.new [t]) ∅ [] in
  let saved := save_csv "transactions.csv" w in
  let loaded := load_csv "transactions.csv" saved.2 in
  valid t
  ∧ saved.1 = Return ()
  ∧ files saved.2 !! "transactions.csv"
    = Some (Regular (Text
        ("type,category,amount" +:+ lineterminator
         +:+ "expense," +:+ String quote (String "a" (String CR "b"))
         +:+ String quote ",5" +:+ lineterminator)))
  ∧ loaded.1 = Return ()
  ∧ ledger loaded.2 = [Transaction.new "expense" (String "a" (String LF "b")) 5]
  ∧ ledger loaded.2 ≠ ledger w.
Proof.
  intros t w saved loaded. split; [split; [by right|done]|].
  assert (Hsaved : saved.1 = Return ()
    ∧ files saved.2 !! "transactions.csv"
      = Some (Regular (Text
          ("type,category,amount" +:+ lineterminator
           +:+ "expense," +:+ String quote (String "a" (String CR "b"))
           +:+ String quote ",5" +:+ lineterminator))))
    by (vm_compute; done).
  assert (Hloaded : loaded.1 = Return ()
    ∧ ledger loaded.2 = [Transaction.new "expense" (String "a" (String LF "b")) 5])
    by (vm_compute; done).
  destruct Hsaved as [? ?], Hloaded as [? Hl].
  split_and!; try done.
Qed.

(** *** [float(str(n))] *)

Lemma pretty_N_char_digit (n : N) :
  (n < 10)%N →
  is_digit (pretty_N_char n) = true
  ∧ digit_value (pretty_N_char n) = Z.of_N n.
Proof.
  intros Hn.
  assert (n = 0 ∨ n = 1 ∨ n = 2 ∨ n = 3 ∨ n = 4 ∨ n = 5 ∨ n = 6 ∨ n = 7
          ∨ n = 8 ∨ n = 9)%N as Hcases by lia.
  repeat (destruct Hcases as [->|Hcases]; [done|]). by subst.
Qed.

Lemma pretty_N_go_digits (n : N) : ∀ s,
  all_digits s → all_digits (pretty_N_go n s).
Proof.
  induction (N.lt_wf_0 n) as [n _ IH]. intros s Hs.
  destruct (decide (n = 0)%N) as [->|Hn]; [by rewrite pretty_N_go_0|].
  rewrite pretty_N_go_step by lia. apply IH.
  - apply N.div_lt; lia.
  - unfold all_digits in *. simpl. rewrite Hs.
    by destruct (pretty_N_char_digit (n mod 10)%N) as [-> _];
      [apply N.mod_lt|].
Qed.

Lemma pretty_N_go_value (n : N) : ∀ s,
  digits_value_from 0 (pretty_N_go n s) = digits_value_from (Z.of_N n) s.
Proof.
  induction (N.lt_wf_0 n) as [n _ IH]. intros s.
  destruct (decide (n = 0)%N) as [->|Hn]; [by rewrite pretty_N_go_0|].
  rewrite pretty_N_go_step by lia. rewrite IH by (apply N.div_lt; lia).
  simpl. f_equal.
  destruct (pretty_N_char_digit (n mod 10)%N) as [_ ->]; [by apply N.mod_lt|].
  transitivity (Z.of_N (10 * (n `div` 10) + n `mod` 10)).
  - by rewrite N2Z.inj_add, N2Z.inj_mul.
  - f_equal. symmetry. by apply N.div_mod.
Qed.

Lemma pretty_N_go_nonempty (n : N) s :
  (0 < n)%N → pretty_N_go n s ≠ EmptyString.
Proof.
  revert s. induction (N.lt_wf_0 n) as [n _ IH]. intros s Hn.
  rewrite pretty_N_go_step by done.
  destruct (decide (n `div` 10 = 0)%N) as [->|Hd]; [by rewrite pretty_N_go_0|].
  apply IH; [apply N.div_lt; lia|by apply N.neq_0_lt_0].
Qed.

Lemma digit_facts (c : ascii) :
  is_digit c = true →
  float_space c = false ∧ char_is c "_" = false ∧ lower c = c
  ∧ char_is c CR = false
  ∧ take_sign (String c EmptyString) = (false, String c EmptyString)
  ∧ c ≠ "i"%char ∧ c ≠ "n"%char.
Proof.
  destruct c as [[] [] [] [] [] [] [] []]; intros H; try discriminate H;
    by split_and!.
Qed.

Lemma take_sign_digit (c : ascii) (rest : string) :
  is_digit c = true → take_sign (String c rest) = (false, String c rest).
Proof.
  intros (_ & _ & _ & _ & H & _)%digit_facts.
  unfold take_sign in *. by repeat case_match; simplify_eq.
Qed.

Lemma all_digits_cons (c : ascii) (s : string) :
  all_digits (String c s) ↔ is_digit c = true ∧ all_digits s.
Proof.
  unfold all_digits. simpl. destruct (is_digit c); simpl; naive_solver.
Qed.

Lemma rstrip_no_space (s : string) :
  string_exists float_space s = false → rstrip s = s.
Proof.
  induction s as [|c s IH]; simpl; [done|].
  intros [Hc Hs]%orb_false_elim. rewrite (IH Hs), Hc. by destruct s.
Qed.

Lemma strip_no_space (s : string) :
  string_exists float_space s = false → strip s = s.
Proof.
  intros H. unfold strip.
  assert (lstrip s = s) as ->; [|by apply rstrip_no_space].
  destruct s as [|c s]; simpl in *; [done|].
  by apply orb_false_elim in H as [-> _].
Qed.

Lemma all_digits_no_space (s : string) :
  all_digits s → string_exists float_space s = false.
Proof.
  induction s as [|c s IH]; [done|].
  intros [Hc Hs]%all_digits_cons. simpl. rewrite (IH Hs).
  by apply digit_facts in Hc as (-> & _).
Qed.

Lemma all_digits_no_CR (s : string) : all_digits s → no_CR s.
Proof.
  unfold no_CR. induction s as [|c s IH]; [done|].
  intros [Hc Hs]%all_digits_cons. simpl. rewrite (IH Hs).
  by apply digit_facts in Hc as (_ & _ & _ & -> & _).
Qed.

Lemma remove_underscores_digits (s : string) : ∀ prev,
  all_digits s → char_is prev "_" = false →
  remove_underscores prev s = Some s.
Proof.
  induction s as [|c s IH]; intros prev; simpl.
  - by intros _ ->.
  - intros [Hc Hs]%all_digits_cons Hprev.
    pose proof (digit_facts c Hc) as (_ & Hu & _).
    rewrite Hu, Hc, andb_false_r. simpl. by rewrite (IH c Hs Hu).
Qed.

Lemma span_digits_all (s : string) :
  all_digits s → span_digits s = (s, EmptyString).
Proof.
  induction s as [|c s IH]; [done|].
  intros [Hc Hs]%all_digits_cons. simpl. by rewrite Hc, (IH Hs).
Qed.

Lemma parse_float_literal_digits (negative : bool) (s : string) :
  all_digits s → s ≠ EmptyString →
  parse_float_literal (if negative then String "-" s else s)
  = Some (Decimal negative s EmptyString None).
Proof.
  intros Hs Hne. destruct s as [|c s]; [done|].
  pose proof Hs as [Hc Hs']%all_digits_cons.
  pose proof (digit_facts c Hc) as (_ & _ & Hl & _ & _ & Hi & Hn).
  unfold parse_float_literal.
  assert (take_sign (if negative then String "-" (String c s) else String c s)
          = (negative, String c s)) as ->.
  { destruct negative; [done|by apply take_sign_digit]. }
  rewrite bool_decide_eq_false_2.
  2:{ simpl. rewrite Hl. rewrite !elem_of_cons, elem_of_nil.
      intros [H|[H|[H|[]]]]; injection H; auto. }
  rewrite (span_digits_all _ Hs). simpl. done.
Qed.

Lemma float_digits (negative : bool) (s : string) :
  all_digits s → s ≠ EmptyString →
  float (VStr (if negative then String "-" s else s))
  = Return (if negative then - digits_value s else digits_value s).
Proof.
  intros Hs Hne. unfold float.
  assert (Hsp : string_exists float_space (if negative then String "-" s else s)
                = false).
  { destruct negative; simpl; by rewrite all_digits_no_space. }
  rewrite (strip_no_space _ Hsp).
  assert (remove_underscores NUL (if negative then String "-" s else s)
          = Some (if negative then String "-" s else s)) as ->.
  { destruct negative; simpl; by rewrite remove_underscores_digits. }
  simpl. by rewrite parse_float_literal_digits.
Qed.

Lemma str_digits (n : Z) :
  ∃ s, all_digits s ∧ s ≠ EmptyString ∧ digits_value s = Z.abs n
       ∧ str n = if bool_decide (n < 0) then String "-" s else s.
Proof.
  destruct n as [|p|p].
  - by exists "0".
  - exists (pretty_N_go (N.pos p) EmptyString). split_and!.
    + by apply pretty_N_go_digits.
    + by apply pretty_N_go_nonempty.
    + unfold digits_value. by rewrite pretty_N_go_value.
    + done.
  - exists (pretty_N_go (N.pos p) EmptyString). split_and!.
    + by apply pretty_N_go_digits.
    + by apply pretty_N_go_nonempty.
    + unfold digits_value. by rewrite pretty_N_go_value.
    + done.
Qed.

(** [float] reads back the text [str] makes of an integer. *)
Lemma float_str (n : Z) : float (VStr (str n)) = Return n.
Proof.
  destruct (str_digits n) as (s & Hs & Hne & Hv & ->).
  rewrite (float_digits _ s Hs Hne), Hv.
  case_bool_decide; f_equal; lia.
Qed.

Lemma str_no_CR (n : Z) : no_CR (str n).
Proof.
  destruct (str_digits n) as (s & Hs & _ & _ & ->).
  pose proof (all_digits_no_CR s Hs) as H. unfold no_CR in *.
  by case_bool_decide.
Qed.

(** *** Text *)

Lemma string_app_nil_r (s : string) : s +:+ EmptyString = s.
Proof. induction s as [|c s IH]; [done|]. by rewrite <-IH at 2. Qed.

Lemma string_app_cons (c : ascii) (s t : string) :
  String c s +:+ t = String c (s +:+ t).
Proof. done. Qed.

Lemma string_app_assoc (s t u : string) : (s +:+ t) +:+ u = s +:+ (t +:+ u).
Proof.
  induction s as [|c s IH]; [done|]. by rewrite !string_app_cons, IH.
Qed.

Lemma string_exists_app (p : ascii → bool) (s t : string) :
  string_exists p (s +:+ t) = string_exists p s || string_exists p t.
Proof.
  induction s as [|c s IH]; [done|].
  rewrite string_app_cons. simpl. by rewrite IH, orb_assoc.
Qed.

Lemma no_CR_app (s t : string) : no_CR (s +:+ t) ↔ no_CR s ∧ no_CR t.
Proof. unfold no_CR. rewrite string_exists_app. apply orb_false_iff. Qed.

Lemma no_CR_cons (c : ascii) (s : string) :
  no_CR (String c s) ↔ char_is c CR = false ∧ no_CR s.
Proof. unfold no_CR. simpl. apply orb_false_iff. Qed.

Lemma universal_newlines_line (body rest : string) :
  no_CR body →
  universal_newlines (body +:+ lineterminator +:+ rest)
  = body +:+ String LF (universal_newlines rest).
Proof.
  induction body as [|c body IH]; [done|].
  intros [Hc Hb]%no_CR_cons. rewrite !string_app_cons. simpl.
  by rewrite Hc, (IH Hb).
Qed.

(** *** The reader, character by character *)

Lemma readlines_nonempty (text : string) :
  text ≠ EmptyString → readlines text ≠ [].
Proof.
  destruct text as [|c text]; [done|]. intros _. simpl.
  by repeat case_match.
Qed.

Lemma reader_char (self : Reader) (c : ascii) (text : string) :
  char_is c LF = false → text ≠ EmptyString →
  reader self (readlines (String c text))
  = match parse_process_char self (Some c) with
    | Return self' => reader self' (readlines text)
    | Raise e => ([], Some e)
    end.
Proof.
  intros Hc Htext. simpl readlines. rewrite Hc.
  destruct (readlines text) as [|line lines] eqn:Hl;
    [by apply readlines_nonempty in Hl|].
  simpl. by destruct (parse_process_char self (Some c)).
Qed.

Lemma reader_newline (self : Reader) (text : string) :
  reader self (readlines (String LF text))
  = match self' ← parse_process_char self (Some LF);
          parse_process_char self' None with
    | Return self' =>
        if bool_decide (state self' = START_RECORD)
        then cons_record (fields self') (reader parse_reset (readlines text))
        else reader self' (readlines text)
    | Raise e => ([], Some e)
    end.
Proof.
  simpl readlines. simpl.
  destruct (parse_process_char self (Some LF)) as [self1|e]; [|done]. simpl.
  destruct (parse_process_char self1 None) as [self2|e]; [|done].
  case_bool_decide; [|done].
  by destruct (reader parse_reset (readlines text)).
Qed.

Local Arguments readlines : simpl never.
Local Arguments reader : simpl never.

Lemma string_app_nil_l (s : string) : EmptyString +:+ s = s.
Proof. done. Qed.

Ltac norm_app :=
  repeat (rewrite string_app_assoc || rewrite string_app_cons
          || rewrite string_app_nil_l).

Ltac nonempty :=
  match goal with
  | |- ?s +:+ _ ≠ _ => by destruct s
  | _ => done
  end.

Ltac step :=
  unfold parse_process_char, set_state, parse_save_field, parse_add_char,
    is_newline; simpl.

Lemma needs_quotes_false (c : ascii) :
  needs_quotes c = false →
  char_is c delimiter = false ∧ char_is c quote = false
  ∧ char_is c CR = false ∧ char_is c LF = false.
Proof.
  unfold needs_quotes, lineterminator. simpl.
  rewrite !orb_false_iff. naive_solver.
Qed.

Lemma unquoted_run (f : string) : ∀ (fs : list string) (b text : string),
  string_exists needs_quotes f = false → text ≠ EmptyString →
  reader (mkReader IN_FIELD fs b) (readlines (f +:+ text))
  = reader (mkReader IN_FIELD fs (b +:+ f)) (readlines text).
Proof.
  induction f as [|c f IH]; intros fs b text Hf Htext.
  - by rewrite string_app_nil_r.
  - simpl in Hf. apply orb_false_elim in Hf as [Hc Hf].
    apply needs_quotes_false in Hc as (Hd & Hq & Hcr & Hlf).
    norm_app. rewrite reader_char; [|done|by destruct f, text].
    unfold parse_process_char, is_newline. simpl. rewrite Hlf, Hcr, Hd. simpl.
    unfold parse_add_char. simpl. rewrite IH by done. by norm_app.
Qed.

Lemma quoted_run (f : string) : ∀ (fs : list string) (b text : string),
  no_CR f → text ≠ EmptyString →
  reader (mkReader IN_QUOTED_FIELD fs b) (readlines (double_quotes f +:+ text))
  = reader (mkReader IN_QUOTED_FIELD fs (b +:+ f)) (readlines text).
Proof.
  induction f as [|c f IH]; intros fs b text Hf Htext.
  - by rewrite string_app_nil_r.
  - apply no_CR_cons in Hf as [Hcr Hf].
    assert (Hrest : double_quotes f +:+ text ≠ EmptyString)
      by (by destruct (double_quotes f), text).
    change (double_quotes (String c f))
      with ((if char_is c quote then String quote (String quote EmptyString)
             else String c EmptyString) +:+ double_quotes f).
    destruct (char_is c quote) eqn:Hq.
    + apply bool_decide_eq_true in Hq as ->. norm_app.
      rewrite reader_char; [|done..].
      unfold parse_process_char at 1. simpl.
      rewrite reader_char; [|done..].
      unfold parse_process_char at 1. simpl.
      unfold parse_add_char, set_state. simpl.
      rewrite IH by done. by norm_app.
    + norm_app. destruct (char_is c LF) eqn:Hlf.
      * apply bool_decide_eq_true in Hlf as ->.
        rewrite reader_newline. unfold parse_process_char. simpl.
        unfold parse_add_char. simpl.
        rewrite IH by done. by norm_app.
      * rewrite reader_char; [|done..].
        unfold parse_process_char. simpl. rewrite Hq.
        unfold parse_add_char. simpl.
        rewrite IH by done. by norm_app.
Qed.

(** A field, as the writer puts it, followed by the delimiter: the reader
    saves the field and expects the next one. *)
Lemma reader_field (f : string) (s0 : ParserState) (fs : list string)
    (text : string) :
  no_CR f → s0 = START_RECORD ∨ s0 = START_FIELD → text ≠ EmptyString →
  reader (mkReader s0 fs EmptyString)
         (readlines (join_append f +:+ String delimiter text))
  = reader (mkReader START_FIELD (fs ++ [f]) EmptyString) (readlines text).
Proof.
  intros Hf Hs0 Htext. unfold join_append.
  destruct (string_exists needs_quotes f) eqn:Hq.
  - norm_app. rewrite reader_char; [|done|nonempty].
    assert (parse_process_char (mkReader s0 fs EmptyString) (Some quote)
            = Return (mkReader IN_QUOTED_FIELD fs EmptyString)) as ->
      by (by destruct Hs0 as [-> | ->]).
    rewrite quoted_run by done. norm_app.
    rewrite reader_char; [|done|nonempty]. unfold parse_process_char at 1. simpl.
    rewrite reader_char; [|done|nonempty]. unfold parse_process_char at 1. simpl.
    done.
  - destruct f as [|c f].
    + norm_app. rewrite reader_char; [|done|nonempty].
      by destruct Hs0 as [-> | ->].
    + simpl in Hq. apply orb_false_elim in Hq as [Hc Hq].
      apply needs_quotes_false in Hc as (Hd & Hqu & Hcr & Hlf).
      norm_app. rewrite reader_char; [|done|nonempty].
      assert (parse_process_char (mkReader s0 fs EmptyString) (Some c)
              = Return (mkReader IN_FIELD fs (String c EmptyString))) as ->.
      { unfold parse_process_char, is_newline.
        destruct Hs0 as [-> | ->]; simpl; by rewrite Hlf, Hcr, Hqu, Hd. }
      rewrite unquoted_run by done. norm_app.
      rewrite reader_char; [|done|nonempty]. unfold parse_process_char. simpl. done.
Qed.

(** The last field of a record, followed by the end of the line: the
    record is complete and the reader starts afresh. *)
Lemma reader_last_field (f : string) (fs : list string) (text : string) :
  no_CR f →
  reader (mkReader START_FIELD fs EmptyString)
         (readlines (join_append f +:+ String LF text))
  = cons_record (fs ++ [f]) (reader parse_reset (readlines text)).
Proof.
  intros Hf. unfold join_append.
  destruct (string_exists needs_quotes f) eqn:Hq.
  - norm_app. rewrite reader_char; [|done|nonempty].
    step.
    rewrite quoted_run by done. norm_app.
    rewrite reader_char; [|done|nonempty]. step.
    rewrite reader_newline. step. done.
  - destruct f as [|c f].
    + norm_app. rewrite reader_newline. step. done.
    + simpl in Hq. apply orb_false_elim in Hq as [Hc Hq].
      apply needs_quotes_false in Hc as (Hd & Hqu & Hcr & Hlf).
      norm_app. rewrite reader_char; [|done|nonempty].
      assert (parse_process_char (mkReader START_FIELD fs EmptyString) (Some c)
              = Return (mkReader IN_FIELD fs (String c EmptyString))) as ->.
      { unfold parse_process_char, is_newline. simpl.
        by rewrite Hlf, Hcr, Hqu, Hd. }
      rewrite unquoted_run by done. norm_app.
      rewrite reader_newline. step. done.
Qed.

(** A line of three fields, as the reader sees it after the translation of
    newlines. *)
Lemma reader_record (f1 f2 f3 text : string) :
  no_CR f1 → no_CR f2 → no_CR f3 →
  reader parse_reset
    (readlines (join_append f1 +:+ String delimiter
                  (join_append f2 +:+ String delimiter
                     (join_append f3 +:+ String LF text))))
  = cons_record [f1; f2; f3] (reader parse_reset (readlines text)).
Proof.
  intros H1 H2 H3. unfold parse_reset.
  rewrite reader_field; [|done|by left|by destruct (join_append f2)].
  rewrite reader_field; [|done|by right|by destruct (join_append f3)].
  by rewrite reader_last_field.
Qed.

(** *** What [save_csv] writes and what the reader makes of it *)

Lemma writer_writerow_three (f1 f2 f3 : string) :
  writer_writerow [f1; f2; f3]
  = (join_append f1 +:+ String delimiter
       (join_append f2 +:+ String delimiter (join_append f3)))
    +:+ lineterminator.
Proof. unfold writer_writerow. by destruct f1. Qed.

Lemma double_quotes_no_CR (f : string) : no_CR f → no_CR (double_quotes f).
Proof.
  induction f as [|c f IH]; [done|].
  intros [Hc Hf]%no_CR_cons.
  change (double_quotes (String c f))
    with ((if char_is c quote then String quote (String quote EmptyString)
           else String c EmptyString) +:+ double_quotes f).
  apply no_CR_app. split; [|auto].
  destruct (char_is c quote); [done|]. unfold no_CR. simpl. by rewrite Hc.
Qed.

Lemma join_append_no_CR (f : string) : no_CR f → no_CR (join_append f).
Proof.
  intros Hf. unfold join_append. case_match; [|done].
  norm_app. apply no_CR_cons. split; [done|].
  apply no_CR_app. split; [by apply double_quotes_no_CR|done].
Qed.

Lemma universal_newlines_record (f1 f2 f3 rest : string) :
  no_CR f1 → no_CR f2 → no_CR f3 →
  universal_newlines (writer_writerow [f1; f2; f3] +:+ rest)
  = join_append f1 +:+ String delimiter
      (join_append f2 +:+ String delimiter
         (join_append f3 +:+ String LF (universal_newlines rest))).
Proof.
  intros H1 H2 H3.
  rewrite writer_writerow_three, string_app_assoc, universal_newlines_line.
  - by norm_app.
  - apply no_CR_app. split; [by apply join_append_no_CR|].
    apply no_CR_cons. split; [done|].
    apply no_CR_app. split; [by apply join_append_no_CR|].
    apply no_CR_cons. split; [done|]. by apply join_append_no_CR.
Qed.

Lemma reader_csv_lines (ts : list Transaction.t) :
  Forall (λ t, no_CR (Transaction.transaction_type t)
               ∧ no_CR (Transaction.category t)) ts →
  reader parse_reset
    (readlines (universal_newlines
                  (foldr (λ t text, csv_line t +:+ text) EmptyString ts)))
  = (csv_record <$> ts, None).
Proof.
  induction 1 as [|t ts [Hk Hc] _ IH]; [done|].
  simpl foldr. unfold csv_line at 1.
  rewrite universal_newlines_record, reader_record, IH;
    auto using str_no_CR.
Qed.

Lemma reader_csv_text (ts : list Transaction.t) :
  Forall (λ t, no_CR (Transaction.transaction_type t)
               ∧ no_CR (Transaction.category t)) ts →
  reader parse_reset (readlines (universal_newlines (csv_text ts)))
  = (["type"; "category"; "amount"] :: (csv_record <$> ts), None).
Proof.
  intros Hts. unfold csv_text.
  rewrite universal_newlines_record, reader_record, reader_csv_lines; done.
Qed.

Lemma DictReader_csv_text (ts : list Transaction.t) :
  Forall (λ t, no_CR (Transaction.transaction_type t)
               ∧ no_CR (Transaction.category t)) ts →
  DictReader (readlines (universal_newlines (csv_text ts)))
  = (csv_row <$> ts, None).
Proof.
  intros Hts. unfold DictReader. rewrite reader_csv_text by done.
  f_equal. induction ts as [|t ts IH]; [done|].
  apply Forall_cons in Hts as [_ Hts].
  rewrite fmap_cons, filter_cons, decide_True by done.
  rewrite !fmap_cons. f_equal. by apply IH.
Qed.

Local Arguments float : simpl never.
Local Arguments str : simpl never.

Lemma load_csv_row_csv_row (t : Transaction.t) :
  valid t → load_csv_row (csv_row t) = Return t.
Proof.
  intros [Hk Ha]. unfold load_csv_row, csv_row. simpl.
  rewrite float_str. simpl. unfold Transaction.__init__.
  rewrite bool_decide_eq_true_2 by (by apply recognized_kind_elem). simpl.
  destruct (Z.leb_spec (Transaction.amount t) 0); [lia|]. by destruct t.
Qed.

Lemma decode_csv_csv_text (ts : list Transaction.t) :
  Forall valid ts → Forall (λ t, no_CR (Transaction.category t)) ts →
  decode_csv (Text (csv_text ts)) = Return ts.
Proof.
  intros Hv Hc. unfold decode_csv, comprehension_over, read.
  cbn [mbind result_mbind result_bind].
  rewrite DictReader_csv_text.
  - simpl. assert (comprehension load_csv_row (csv_row <$> ts) = Return ts) as ->;
      [|done].
    clear Hc. induction Hv as [|t ts Ht _ IH]; [done|].
    rewrite fmap_cons. simpl. by rewrite (load_csv_row_csv_row t Ht), IH.
  - apply Forall_and. split; [|done].
    eapply Forall_impl; [exact Hv|]. intros t [[-> | ->] _]; done.
Qed.

Lemma DictWriter_writerow_to_dict (t : Transaction.t) :
  DictWriter_writerow ["type"; "category"; "amount"] (Transaction.to_dict t)
  = Return (csv_line t).
Proof. reflexivity. Qed.

Lemma for_each_write (filename : string) (ts : list Transaction.t) :
  ∀ (w : World) (before : string),
  files w !! filename = Some (Regular (Text before)) →
  for_each ts (λ t,
    line ← lift (DictWriter_writerow ["type"; "category"; "amount"]
                   (Transaction.to_dict t));
    write filename line) w
  = (Return (),
     mkWorld (self w)
       (<[filename := Regular (Text
            (before +:+ foldr (λ t text, csv_line t +:+ text) EmptyString ts))]>
          (files w))
       (stdout w)).
Proof.
  induction ts as [|t ts IH]; intros w before Hf.
  - simpl. rewrite string_app_nil_r, insert_id by done. by destruct w.
  - simpl for_each. unfold mbind at 1, M_mbind at 1, bind at 1.
    unfold mbind at 1, M_mbind at 1, bind at 1, lift at 1.
    rewrite DictWriter_writerow_to_dict. unfold write at 1. rewrite Hf.
    rewrite (IH _ (before +:+ csv_line t)) by apply lookup_insert_eq.
    simpl. by rewrite insert_insert_eq, string_app_assoc.
Qed.

Lemma save_csv_runs (filename : string) (w : World) :
  files w !! filename ≠ Some Denied →
  save_csv filename w
  = (Return (),
     mkWorld (self w)
       (<[filename := Regular (Text (csv_text (ledger w)))]> (files w))
       (stdout w ++ ["Data saved to " +:+ filename])).
Proof.
  intros Hf. unfold save_csv.
  unfold mbind at 1, M_mbind at 1, bind at 1.
  assert (open_w filename w
          = (Return (),
             mkWorld (self w)
               (<[filename := Regular (Text EmptyString)]> (files w)) (stdout w)))
    as ->.
  { unfold open_w. by destruct (files w !! filename) as [[|]|]. }
  unfold mbind at 1, M_mbind at 1, bind at 1, lift at 1.
  change (DictWriter_writeheader ["type"; "category"; "amount"])
    with (Return (writer_writerow ["type"; "category"; "amount"])).
  unfold mbind at 1, M_mbind at 1, bind at 1, write at 1.
  simpl files. rewrite lookup_insert_eq.
  unfold mbind at 1, M_mbind at 1, bind at 1, get_transactions at 1.
  unfold mbind at 1, M_mbind at 1, bind at 1.
  erewrite for_each_write by apply lookup_insert_eq.
  unfold print, csv_text, ledger. simpl.
  by rewrite !insert_insert_eq.
Qed.

(** C2, the part of the round trip that holds.  When no category holds a
    carriage return, [load_csv] after [save_csv] puts back exactly the
    ledger that was saved, whatever delimiters, quotes and line feeds the
    categories hold. *)
Lemma save_csv_load_csv_roundtrip (filename : string) (w : World) :
  files w !! filename ≠ Some Denied →
  Forall valid (ledger w) →
  Forall (λ t, no_CR (Transaction.category t)) (ledger w) →
  ∃ w1, save_csv filename w = (Return (), w1)
        ∧ load_csv filename w1
          = (Return (), loaded w1 (ledger w) ("Data loaded from " +:+ filename)).
Proof.
  intros Hf Hv Hc. eexists. split; [by apply save_csv_runs|].
  erewrite load_csv_present by apply lookup_insert_eq.
  by rewrite decode_csv_csv_text.
Qed.

(** *** The example of the script *)

(** The four calls of the source's own example, from a fresh tracker: the
    balance is 1850 and the summary holds the three expense categories. *)
Example script_scenario :
  let w0 := mkWorld ExpenseTracker.__init__ ∅ [] in
  let w1 := (add_transaction "income" "salary" 2500 w0).2 in
  let w2 := (add_transaction "expense" "food" 300 w1).2 in
  let w3 := (add_transaction "expense" "transportation" 150 w2).2 in
  let w4 := (add_transaction "expense" "entertainment" 200 w3).2 in
  (calculate_balance w4).1 = Return 1850
  ∧ (summary_by_category w4).1
    = Return (<["food" := 300]> (<["transportation" := 150]>
                (<["entertainment" := 200]> ∅))).
Proof. split; vm_compute; reflexivity. Qed.

(** * Further properties of the code *)

(** *** Saving *)







(** *** Adding, then querying *)


Lemma init_returns (kind category : string) (amount : Z) (t : Transaction.t) :
  Transaction.__init__ kind category amount = Return t →
  t = Transaction.new kind category amount ∧ recognized_kind kind ∧ 0 < amount.
Proof.
  intros Ht. pose proof (init_valid _ _ _ _ Ht) as Hv.
  unfold Transaction.__init__ in Ht. repeat case_match; simplify_eq.
  by destruct Hv.
Qed.



(** X5.  A successful [add_transaction] of an expense raises the total of
    its category in the summary by the amount (from 0 if the category is
    new) and touches no other category; of an income, it leaves the summary
    as it is. *)
Theorem add_transaction_moves_summary (kind category : string) (amount : Z)
    (w : World) (t : Transaction.t) :
  Transaction.__init__ kind category amount = Return t →
  ∃ before,
    (summary_by_category w).1 = Return before
    ∧ (summary_by_category (add_transaction kind category amount w).2).1
      = Return (if bool_decide (kind = "expense")
                then <[category := default 0 (before !! category) + amount]> before
                else before).
Proof.
  intros Ht. eexists. split; [reflexivity|].
  rewrite add_transaction_runs, Ht.
  unfold summary_by_category, mbind, M_mbind, bind, get_transactions, ret,
    ledger. simpl. f_equal.
  rewrite foldl_snoc. unfold summary_step at 1.
  by apply init_returns in Ht as (-> & _ & _).
Qed.

Lemma add_transaction_moves_summary_witness :
  let w := mkWorld (ExpenseTracker.new [Transaction.new "expense" "food" 300]) ∅ [] in
  Transaction.__init__ "expense" "food" 45 = Return (Transaction.new "expense" "food" 45)
  ∧ ∃ before,
      (summary_by_category w).1 = Return before
      ∧ (summary_by_category (add_transaction "expense" "food" 45 w).2).1
        = Return (if bool_decide ("expense" = "expense")
                  then <["food" := default 0 (before !! "food") + 45]> before
                  else before).
Proof.
  intros w. split; [reflexivity|].
  exact (add_transaction_moves_summary "expense" "food" 45 w
           (Transaction.new "expense" "food" 45) eq_refl).
Defined.

(** *** Loading replaces, and never writes *)

(** X6.  A load does not merge and does not write: what it returns or
    raises and the ledger it leaves on return do not depend on the ledger
    the tracker held, and the files are as before. *)
Theorem load_replaces_ledger (filename : string) (w : World)
    (other : list Transaction.t) :
  ((load_json filename (with_ledger other w)).1 = (load_json filename w).1
   ∧ ((load_json filename w).1 = Return () →
        ledger (load_json filename (with_ledger other w)).2
        = ledger (load_json filename w).2)
   ∧ files (load_json filename w).2 = files w)
  ∧ ((load_csv filename (with_ledger other w)).1 = (load_csv filename w).1
     ∧ ((load_csv filename w).1 = Return () →
          ledger (load_csv filename (with_ledger other w)).2
          = ledger (load_csv filename w).2)
     ∧ files (load_csv filename w).2 = files w).
Proof.
  assert (Hf : files (with_ledger other w) = files w) by done.
  destruct (files w !! filename) as [[c|]|] eqn:Hl.
  - rewrite !(load_json_present _ _ c), !(load_csv_present _ _ c)
      by (by rewrite ?Hf).
    split; [destruct (decode_json c)|destruct (decode_csv c)]; done.
  - rewrite !load_json_denied, !load_csv_denied by (by rewrite ?Hf). done.
  - rewrite !load_json_absent, !load_csv_absent by (by rewrite ?Hf). done.
Qed.

(** *** What a load that returns has read *)






(** *** Dicts and the columns of a CSV file *)

Lemma getitem_keys (d : list (string * value)) (key : string) :
  (∃ v, getitem d key = Return v) ↔ key ∈ d.*1.
Proof.
  induction d as [|[k v] d IH]; simpl.
  - split; [by intros [v ?]|by intros ?%elem_of_nil].
  - rewrite elem_of_cons. case_bool_decide as Hk.
    + split; [by left|eauto].
    + rewrite IH. naive_solver.
Qed.

Lemma getitem_missing (d : list (string * value)) (key : string) :
  key ∉ d.*1 → getitem d key = Raise (KeyError key).
Proof.
  intros Hk. destruct (getitem d key) as [v|e] eqn:Hg.
  - destruct Hk. apply getitem_keys. eauto.
  - by apply getitem_raises in Hg as ->.
Qed.

Lemma setitem_keys (d : list (string * value)) (key : string) (v : value) (x : string) :
  x ∈ (setitem d key v).*1 ↔ x = key ∨ x ∈ d.*1.
Proof.
  induction d as [|[k u] d IH]; simpl.
  - rewrite list_elem_of_singleton, elem_of_nil. naive_solver.
  - case_bool_decide as Hk; simpl; rewrite !elem_of_cons; [naive_solver|].
    rewrite IH. naive_solver.
Qed.

Lemma dict_keys (pairs : list (string * value)) (x : string) :
  x ∈ (dict pairs).*1 ↔ x ∈ pairs.*1.
Proof.
  unfold dict.
  cut (∀ d, x ∈ (foldl (λ d kv, setitem d kv.1 kv.2) d pairs).*1
            ↔ x ∈ d.*1 ∨ x ∈ pairs.*1).
  { intros H. rewrite H. simpl. rewrite elem_of_nil. naive_solver. }
  induction pairs as [|[k v] pairs IH]; intros d; simpl.
  - rewrite elem_of_nil. naive_solver.
  - rewrite IH, setitem_keys, elem_of_cons. naive_solver.
Qed.

Lemma fst_zip_take {A B} (l : list A) (k : list B) :
  (zip l k).*1 = take (length k) l.
Proof.
  revert k. induction l as [|x l IH]; intros [|y k]; simpl; [done..|].
  by rewrite IH.
Qed.

Lemma DictReader_row_keys (fieldnames row : list string) (x : string) :
  x ∈ (DictReader_row fieldnames row).*1 ↔ x ∈ fieldnames.
Proof.
  unfold DictReader_row.
  cut (∀ (keys : list string) d,
         x ∈ (foldl (λ d key, setitem d key VNone) d keys).*1
         ↔ x ∈ d.*1 ∨ x ∈ keys).
  { intros H. rewrite H, dict_keys, fst_zip_take, length_fmap.
    rewrite <-(take_drop (length row) fieldnames) at 3.
    by rewrite elem_of_app. }
  induction keys as [|k keys IH]; intros d; simpl.
  - rewrite elem_of_nil. naive_solver.
  - rewrite IH, setitem_keys, elem_of_cons. naive_solver.
Qed.

(** X8.  A CSV file whose header lacks one of the columns type, category,
    amount and that has a data row is refused with [KeyError] for the first
    of the three names that is missing; the ledger stays as it was. *)
Theorem load_csv_missing_column (filename text : string) (w : World)
    (fieldnames : list string) (records : list (list string)) (key : string) :
  files w !! filename = Some (Regular (Text text)) →
  (reader parse_reset (readlines (universal_newlines text))).1
  = fieldnames :: records →
  filter (λ row, row ≠ []) records ≠ [] →
  key ∉ fieldnames →
  key = "type"
  ∨ (key = "category" ∧ "type" ∈ fieldnames)
  ∨ (key = "amount" ∧ "type" ∈ fieldnames ∧ "category" ∈ fieldnames) →
  load_csv filename w = (Raise (KeyError key), w).
Proof.
  intros Hf Hr Hrows Hkey Hfirst.
  rewrite (load_csv_present _ _ _ Hf).
  unfold decode_csv, comprehension_over, read, DictReader.
  cbn [mbind result_mbind result_bind].
  destruct (reader parse_reset _) as [recs err]. simpl in Hr. subst recs.
  destruct (filter _ records) as [|row rows]; [done|].
  rewrite fmap_cons. cbn [fst comprehension].
  assert (load_csv_row (DictReader_row fieldnames row) = Raise (KeyError key))
    as ->; [|done].
  assert (Hin : ∀ k, k ∈ fieldnames →
            ∃ v, getitem (DictReader_row fieldnames row) k = Return v).
  { intros k Hk. apply getitem_keys. by apply DictReader_row_keys. }
  assert (Hmiss : getitem (DictReader_row fieldnames row) key = Raise (KeyError key)).
  { apply getitem_missing. by rewrite DictReader_row_keys. }
  unfold load_csv_row.
  destruct Hfirst as [->|[[-> Ht]|(-> & Ht & Hc)]].
  - by rewrite Hmiss.
  - destruct (Hin _ Ht) as [v ->]. simpl. by rewrite Hmiss.
  - destruct (Hin _ Ht) as [v ->], (Hin _ Hc) as [v' ->]. simpl.
    by rewrite Hmiss.
Qed.

Lemma load_csv_missing_column_witness :
  let text := unlines ["tipo,categoria,monto"; "ingreso,salario,2500"] in
  let w := mkWorld (ExpenseTracker.new [Transaction.new "expense" "rent" 900])
                   {[ "movimientos.csv" := Regular (Text text) ]} [] in
  files w !! "movimientos.csv" = Some (Regular (Text text))
  ∧ (reader parse_reset (readlines (universal_newlines text))).1
    = [["tipo"; "categoria"; "monto"]; ["ingreso"; "salario"; "2500"]]
  ∧ ("type" ∉ ["tipo"; "categoria"; "monto"])
  ∧ load_csv "movimientos.csv" w = (Raise (KeyError "type"), w).
Proof.
  intros text w.
  assert (H1 : files w !! "movimientos.csv" = Some (Regular (Text text)))
    by apply lookup_singleton_eq.
  assert (H2 : (reader parse_reset (readlines (universal_newlines text))).1
               = [["tipo"; "categoria"; "monto"]; ["ingreso"; "salario"; "2500"]])
    by reflexivity.
  assert (H3 : "type" ∉ ["tipo"; "categoria"; "monto"]).
  { rewrite !elem_of_cons, elem_of_nil. by intros [|[|[|]]]. }
  split_and!; [exact H1|exact H2|exact H3|].
  refine (load_csv_missing_column "movimientos.csv" text w _ _ "type"
            H1 H2 _ H3 (or_introl eq_refl)).
  rewrite filter_cons, decide_True by done. done.
Defined.

(** *** The JSON documents [load_json] accepts *)

Lemma call_keywords_parameter_dict (t : Transaction.t) :
  valid t → Transaction.call_keywords (VDict (parameter_dict t)) = Return t.
Proof.
  intros [Hk Ha]. unfold Transaction.call_keywords, parameter_dict.
  change (bind_keywords _ _ _)
    with (Return [VStr (Transaction.transaction_type t);
                  VStr (Transaction.category t);
                  VInt (Transaction.amount t)] : result (list value)).
  simpl. unfold Transaction.__init__.
  rewrite bool_decide_eq_true_2 by (by apply recognized_kind_elem). simpl.
  destruct (Z.leb_spec (Transaction.amount t) 0); [lia|]. by destruct t.
Qed.

(** X9.  [load_json] does load an array of objects keyed by the names of
    the constructor's parameters (transaction_type, category, amount): for
    valid transactions the ledger becomes exactly that sequence. *)
Theorem load_json_parameter_names (filename : string) (w : World)
    (ts : list Transaction.t) :
  files w !! filename
  = Some (Regular (Json (VList (VDict ∘ parameter_dict <$> ts)))) →
  Forall valid ts →
  load_json filename w
  = (Return (), loaded w ts ("Data loaded from " +:+ filename)).
Proof.
  intros Hf Hv. rewrite (load_json_present _ _ _ Hf).
  unfold decode_json. simpl.
  assert (comprehension Transaction.call_keywords (VDict ∘ parameter_dict <$> ts)
          = Return ts) as ->; [|done].
  clear Hf. induction Hv as [|t ts Ht _ IH]; [done|].
  rewrite fmap_cons. cbn [comprehension]. rewrite IH. unfold compose at 1.
  by rewrite (call_keywords_parameter_dict t Ht).
Qed.

Lemma load_json_parameter_names_witness :
  let ts := [Transaction.new "income" "salary" 2500;
             Transaction.new "expense" "food" 300] in
  let w := mkWorld ExpenseTracker.__init__
             {[ "transactions.json" :=
                  Regular (Json (VList (VDict ∘ parameter_dict <$> ts))) ]} [] in
  files w !! "transactions.json"
  = Some (Regular (Json (VList (VDict ∘ parameter_dict <$> ts))))
  ∧ Forall valid ts
  ∧ load_json "transactions.json" w
    = (Return (), loaded w ts "Data loaded from transactions.json").
Proof.
  intros ts w.
  assert (H1 : files w !! "transactions.json"
               = Some (Regular (Json (VList (VDict ∘ parameter_dict <$> ts)))))
    by apply lookup_singleton_eq.
  assert (H2 : Forall valid ts).
  { repeat apply Forall_cons_2; [split; [by left|done]|split; [by right|done]|].
    constructor. }
  split_and!; [exact H1|exact H2|].
  exact (load_json_parameter_names "transactions.json" w ts H1 H2).
Defined.



(** *** A valid ledger has positive category totals *)

Lemma sum_positive (xs : list Z) :
  xs ≠ [] → Forall (λ x, 0 < x) xs → 0 < sum xs.
Proof.
  intros Hne Hpos. destruct Hpos as [|x xs Hx Hxs]; [done|].
  rewrite sum_cons. clear Hne.
  assert (0 ≤ sum xs); [|lia].
  induction Hxs as [|y ys Hy _ IH]; [done|]. rewrite sum_cons. lia.
Qed.

(** X11.  Over a ledger of valid transactions, every total in the category
    summary is positive: a category is never listed with a zero or negative
    total. *)
Theorem summary_totals_positive (w : World) (summary : gmap string Z)
    (c : string) (total : Z) :
  Forall valid (ledger w) →
  (summary_by_category w).1 = Return summary →
  summary !! c = Some total →
  0 < total.
Proof.
  intros Hv [= <-]. rewrite summary_lookup.
  destruct (expenses_of_category c _) as [|e es] eqn:He; [done|].
  intros Hl. injection Hl as <-. apply sum_positive; [done|].
  change (Forall (λ x, 0 < x) (Transaction.amount <$> e :: es)).
  apply Forall_fmap. rewrite <-He.
  apply Forall_forall. intros t [_ Ht]%list_elem_of_filter.
  rewrite Forall_forall in Hv. by destruct (Hv t Ht).
Qed.

Lemma summary_totals_positive_witness :
  let w := mkWorld (ExpenseTracker.new [Transaction.new "expense" "food" 300;
                                        Transaction.new "income" "salary" 2500;
                                        Transaction.new "expense" "food" 45]) ∅ [] in
  Forall valid (ledger w)
  ∧ (summary_by_category w).1 = Return {[ "food" := 345 ]}
  ∧ ({[ "food" := 345 ]} : gmap string Z) !! "food" = Some 345
  ∧ 0 < 345.
Proof.
  intros w.
  assert (H1 : Forall valid (ledger w)).
  { repeat apply Forall_cons_2;
      [split; [by right|done]|split; [by left|done]|split; [by right|done]|].
    constructor. }
  assert (H2 : (summary_by_category w).1 = Return {[ "food" := 345 ]})
    by (vm_compute; reflexivity).
  assert (H3 : ({[ "food" := 345 ]} : gmap string Z) !! "food" = Some 345)
    by apply lookup_singleton_eq.
  split_and!; [exact H1|exact H2|exact H3|].
  exact (summary_totals_positive w _ "food" 345 H1 H2 H3).
Defined.

(** *** A CSV file is no JSON *)

(** X12.  The file [save_csv] writes is never taken for JSON: [load_json]
    of it raises [JSONDecodeError] and leaves the ledger as it was. *)
Theorem load_json_refuses_saved_csv (filename : string) (w : World) :
  files w !! filename ≠ Some Denied →
  load_json filename (save_csv filename w).2
  = (Raise (JSONDecodeError "Expecting value"), (save_csv filename w).2).
Proof.
  intros Hf. rewrite save_csv_runs by done.
  erewrite load_json_present by apply lookup_insert_eq.
  unfold decode_json, csv_text. by rewrite writer_writerow_three.
Qed.

Lemma load_json_refuses_saved_csv_witness :
  let w := mkWorld (ExpenseTracker.new [Transaction.new "income" "salary" 2500]) ∅ [] in
  files w !! "transactions.csv" ≠ Some Denied
  ∧ load_json "transactions.csv" (save_csv "transactions.csv" w).2
    = (Raise (JSONDecodeError "Expecting value"),
       (save_csv "transactions.csv" w).2).
Proof.
  intros w.
  assert (H1 : files w !! "transactions.csv" ≠ Some Denied)
    by (simpl; rewrite lookup_empty; discriminate).
  split; [exact H1|].
  exact (load_json_refuses_saved_csv "transactions.csv" w H1).
Defined.

(** * The Spanish variant *)

Ltac run_es :=
  unfold Es.try_except_FileNotFoundError, mbind, Es.M_mbind, Es.bind, Es.lift,
    Es.ret, Es.get_movimientos, Es.set_movimientos, Es.print, Es.open_r,
    Es.open_w, Es.write, Es.json_dump;
  simpl.

(** *** class Movimiento *)

Lemma Movimiento_init_returns (tipo categoria : string) (monto : Z) (m : Movimiento.t) :
  Movimiento.__init__ tipo categoria monto = Return m →
  m = Movimiento.new tipo categoria monto
  ∧ (tipo = "ingreso" ∨ tipo = "gasto") ∧ 0 < monto.
Proof.
  unfold Movimiento.__init__.
  case_bool_decide as Hk; simpl; [|done].
  destruct (Z.leb_spec monto 0); [done|]. intros [= <-].
  split; [done|]. split; [|done]. set_solver.
Qed.




(** *** class ControlGastos in memory *)



Lemma to_english_income (m : Movimiento.t) :
  Transaction.transaction_type (to_english m) = "income"
  ↔ Movimiento.tipo m = "ingreso".
Proof.
  unfold to_english. simpl.
  repeat case_bool_decide; split; intros H'; try done; congruence.
Qed.

Lemma to_english_expense (m : Movimiento.t) :
  Transaction.transaction_type (to_english m) = "expense"
  ↔ Movimiento.tipo m = "gasto".
Proof.
  unfold to_english. simpl.
  repeat case_bool_decide; split; intros H'; try done; congruence.
Qed.

Lemma sum_filter_tipo (ms : list Movimiento.t) :
  sum (Movimiento.monto <$> filter (λ m, Movimiento.tipo m = "ingreso") ms)
  = total_of_kind "income" (to_english <$> ms)
  ∧ sum (Movimiento.monto <$> filter (λ m, Movimiento.tipo m = "gasto") ms)
    = total_of_kind "expense" (to_english <$> ms).
Proof.
  induction ms as [|m ms [IH1 IH2]]; [done|].
  rewrite !filter_cons, fmap_cons. cbn [total_of_kind]. split.
  - pose proof (to_english_income m). case_bool_decide; case_decide;
      try naive_solver; rewrite ?fmap_cons, ?sum_cons, IH1; simpl; lia.
  - pose proof (to_english_expense m). case_bool_decide; case_decide;
      try naive_solver; rewrite ?fmap_cons, ?sum_cons, IH2; simpl; lia.
Qed.

(** X15.  The two variants compute the same balance: [calcular_saldo]
    returns, without changing anything, what [calculate_balance] returns
    on the ledger of the translated movements (ingreso as income, gasto as
    expense). *)
Theorem calcular_saldo_agrees (w : Es.World) :
  Es.calcular_saldo w
  = (Return (total_of_kind "income" (to_english <$> libro w)
             - total_of_kind "expense" (to_english <$> libro w)), w)
  ∧ (Es.calcular_saldo w).1
    = (calculate_balance
         (mkWorld (ExpenseTracker.new (to_english <$> libro w))
                  (Es.files w) (Es.stdout w))).1.
Proof.
  assert (Es.calcular_saldo w
          = (Return (total_of_kind "income" (to_english <$> libro w)
                     - total_of_kind "expense" (to_english <$> libro w)), w)) as ->.
  { unfold Es.calcular_saldo. run_es.
    by destruct (sum_filter_tipo (ControlGastos.movimientos (Es.self w)))
      as [-> ->]. }
  split; [done|]. by rewrite calculate_balance_runs.
Qed.

Lemma resumen_paso_agrees (resumen : gmap string Z) (m : Movimiento.t) :
  Es.resumen_paso resumen m = summary_step resumen (to_english m).
Proof.
  unfold Es.resumen_paso, summary_step.
  pose proof (to_english_expense m). by repeat case_bool_decide; naive_solver.
Qed.

(** X16.  The two variants compute the same summary: for every book of
    movements [resumen_por_categoria] returns, without changing anything,
    the mapping that [summary_by_category] returns on the translated
    ledger; so each categoria with a gasto is mapped to the sum of the
    montos of its gastos and no other key is present. *)
Theorem resumen_por_categoria_agrees (w : Es.World) :
  ∃ resumen : gmap string Z,
    Es.resumen_por_categoria w = (Return resumen, w)
    ∧ (summary_by_category
         (mkWorld (ExpenseTracker.new (to_english <$> libro w))
                  (Es.files w) (Es.stdout w))).1 = Return resumen
    ∧ ∀ c, resumen !! c
           = match filter (λ m, Movimiento.tipo m = "gasto"
                                ∧ Movimiento.categoria m = c) (libro w) with
             | [] => None
             | gastos => Some (sum (Movimiento.monto <$> gastos))
             end.
Proof.
  assert (Hfold : ∀ ms acc, foldl Es.resumen_paso acc ms
                            = foldl summary_step acc (to_english <$> ms)).
  { induction ms as [|m ms IH]; intros acc; [done|].
    rewrite fmap_cons. simpl. by rewrite resumen_paso_agrees, IH. }
  eexists. split; [reflexivity|]. split.
  { unfold summary_by_category, mbind, M_mbind, bind, get_transactions, ret.
    simpl. by rewrite Hfold. }
  intros c. unfold libro. rewrite Hfold, summary_lookup.
  unfold expenses_of_category.
  induction (ControlGastos.movimientos (Es.self w)) as [|m ms IH]; [done|].
  rewrite fmap_cons, !filter_cons.
  pose proof (to_english_expense m) as He.
  assert (Hc : Transaction.category (to_english m) = Movimiento.categoria m)
    by done.
  destruct (decide (Movimiento.tipo m = "gasto" ∧ Movimiento.categoria m = c))
    as [Hm|Hm].
  - rewrite decide_True by naive_solver. simpl.
    f_equal. rewrite !sum_cons. f_equal.
    destruct (filter _ (to_english <$> ms)) as [|e es],
             (filter _ ms) as [|g gs]; simplify_eq; try done.
  - rewrite decide_False by naive_solver. done.
Qed.

(** *** ControlGastos: JSON *)

Lemma guardar_json_runs (archivo : string) (w : Es.World) :
  Es.files w !! archivo ≠ Some Denied →
  Es.guardar_json archivo w
  = (Return (),
     Es.mkWorld (Es.self w)
       (<[archivo := Regular (Json (VList (VDict ∘ Movimiento.to_dict <$> libro w)))]>
          (Es.files w))
       (Es.stdout w ++ ["Datos guardados en " +:+ archivo])).
Proof.
  intros Hf. unfold Es.guardar_json. run_es.
  destruct (Es.files w !! archivo) as [[c|]|] eqn:Hlook; try done; simpl;
    by rewrite insert_insert_eq.
Qed.

(** X17.  Persistence across sessions, JSON, in the Spanish variant.  What
    one [ControlGastos] saves with [guardar_json], any other over the same
    files loads with [cargar_json]: its own movements, whatever they were,
    are replaced by the saved ones, for every sequence of valid movements,
    the empty one included. *)
Theorem cargar_json_restores_saved (archivo : string) (w : Es.World)
    (other : list Movimiento.t) :
  Es.files w !! archivo ≠ Some Denied →
  Forall Movimiento.valid (libro w) →
  let saved := (Es.guardar_json archivo w).2 in
  Es.cargar_json archivo
    (Es.mkWorld (ControlGastos.new other) (Es.files saved) (Es.stdout saved))
  = (Return (), cargado saved (libro w) ("Datos cargados desde " +:+ archivo)).
Proof.
  intros Hf Hv. rewrite guardar_json_runs by done. simpl.
  unfold Es.cargar_json. run_es. rewrite lookup_insert_eq. simpl.
  by rewrite (Movimiento_json_roundtrip _ Hv).
Qed.

Lemma cargar_json_restores_saved_witness :
  let ms := [Movimiento.new "ingreso" "salario" 2500;
             Movimiento.new "gasto" "transporte" 150] in
  let w := Es.mkWorld (ControlGastos.new ms) ∅ [] in
  let saved := (Es.guardar_json "movimientos.json" w).2 in
  Es.files w !! "movimientos.json" ≠ Some Denied
  ∧ Forall Movimiento.valid (libro w)
  ∧ Es.cargar_json "movimientos.json"
      (Es.mkWorld ControlGastos.__init__ (Es.files saved) (Es.stdout saved))
    = (Return (), cargado saved ms "Datos cargados desde movimientos.json").
Proof.
  intros ms w saved.
  assert (H1 : Es.files w !! "movimientos.json" ≠ Some Denied)
    by (simpl; rewrite lookup_empty; discriminate).
  assert (H2 : Forall Movimiento.valid (libro w)).
  { repeat apply Forall_cons_2; [split; [by left|done]|split; [by right|done]|].
    constructor. }
  split_and!; [exact H1|exact H2|].
  exact (cargar_json_restores_saved "movimientos.json" w [] H1 H2).
Defined.

(** *** ControlGastos: CSV *)









(** *** ControlGastos: loading *)

Lemma Movimiento_call_returns (tipo categoria monto : value) (m : Movimiento.t) :
  Movimiento.call tipo categoria monto = Return m → Movimiento.valid m.
Proof.
  unfold Movimiento.call. intros H. repeat case_match; simplify_eq.
  by apply Movimiento_init_returns in H as (-> & ? & ?).
Qed.

Lemma Movimiento_call_raises (tipo categoria monto : value) (e : exn) :
  Movimiento.call tipo categoria monto = Raise e → is_FileNotFoundError e = false.
Proof.
  unfold Movimiento.call, Movimiento.__init__. intros H.
  repeat case_match; simplify_eq; done.
Qed.

Lemma Movimiento_call_keywords_outcome (item : value) :
  match Movimiento.call_keywords item with
  | Return m => Movimiento.valid m
  | Raise e => is_FileNotFoundError e = false
  end.
Proof.
  unfold Movimiento.call_keywords. destruct item; try done.
  destruct (bind_keywords _ _ _) as [args|e] eqn:Hb; simpl;
    [|eauto using bind_keywords_raises].
  repeat case_match; simplify_eq;
    eauto using Movimiento_call_returns, Movimiento_call_raises.
Qed.

Lemma cargar_csv_row_outcome (row : list (string * value)) :
  match Es.cargar_csv_row row with
  | Return m => Movimiento.valid m
  | Raise e => is_FileNotFoundError e = false
  end.
Proof.
  unfold Es.cargar_csv_row.
  destruct (getitem row "tipo") as [k|e1] eqn:H1; simpl;
    [|by apply getitem_raises in H1 as ->].
  destruct (getitem row "categoria") as [c|e2] eqn:H2; simpl;
    [|by apply getitem_raises in H2 as ->].
  destruct (getitem row "monto") as [a|e3] eqn:H3; simpl;
    [|by apply getitem_raises in H3 as ->].
  destruct (float a) as [n|e4] eqn:H4; simpl; [|eauto using float_raises].
  destruct (Movimiento.call k c (VInt n)) eqn:Hcall;
    eauto using Movimiento_call_returns, Movimiento_call_raises.
Qed.

Lemma comprehension_outcome {A B} (P : B → Prop) (Q : exn → Prop)
    (f : A → result B) (l : list A) :
  (∀ x, match f x with Return y => P y | Raise e => Q e end) →
  match comprehension f l with
  | Return ys => Forall P ys
  | Raise e => Q e
  end.
Proof.
  intros Hf. induction l as [|x l IH]; simpl; [constructor|].
  specialize (Hf x). destruct (f x) as [y|e]; simpl; [|done].
  destruct (comprehension f l) as [ys|e]; simpl; [|done].
  by constructor.
Qed.

Lemma decodificar_json_outcome (c : contents) :
  match decodificar_json c with
  | Return ms => Forall Movimiento.valid ms
  | Raise e => is_FileNotFoundError e = false
  end.
Proof.
  unfold decodificar_json.
  destruct (json_load c) as [data|e] eqn:H1; simpl.
  - destruct (iter data) as [items|e] eqn:H2; simpl.
    + apply comprehension_outcome, Movimiento_call_keywords_outcome.
    + unfold iter in H2. by repeat case_match; simplify_eq.
  - unfold json_load in H1. by repeat case_match; simplify_eq.
Qed.

Lemma decodificar_csv_outcome (c : contents) :
  match decodificar_csv c with
  | Return ms => Forall Movimiento.valid ms
  | Raise e => is_FileNotFoundError e = false
  end.
Proof.
  unfold decodificar_csv, comprehension_over.
  destruct (read c) as [text|e] eqn:H1; simpl.
  - pose proof (comprehension_outcome Movimiento.valid
                  (λ e, is_FileNotFoundError e = false) Es.cargar_csv_row
                  (DictReader (readlines (universal_newlines text))).1
                  cargar_csv_row_outcome) as Hc.
    destruct (comprehension _ _) as [ms|e]; simpl; [|done].
    destruct (DictReader _).2 as [e|] eqn:He; [|done].
    by apply DictReader_raises in He as [msg ->].
  - destruct c; simpl in H1; by simplify_eq.
Qed.

Lemma cargar_json_present (archivo : string) (w : Es.World) (c : contents) :
  Es.files w !! archivo = Some (Regular c) →
  Es.cargar_json archivo w
  = match decodificar_json c with
    | Return ms => (Return (), cargado w ms ("Datos cargados desde " +:+ archivo))
    | Raise e => (Raise e, w)
    end.
Proof.
  intros H. pose proof (decodificar_json_outcome c) as Ho.
  unfold Es.cargar_json, decodificar_json in *. run_es. rewrite H. simpl.
  destruct (json_load c) as [data|e]; simpl in *; [|by destruct e].
  destruct (iter data) as [items|e]; simpl in *; [|by destruct e].
  destruct (comprehension _ items) as [ms|e]; simpl in *; [done|by destruct e].
Qed.

Lemma cargar_csv_present (archivo : string) (w : Es.World) (c : contents) :
  Es.files w !! archivo = Some (Regular c) →
  Es.cargar_csv archivo w
  = match decodificar_csv c with
    | Return ms => (Return (), cargado w ms ("Datos cargados desde " +:+ archivo))
    | Raise e => (Raise e, w)
    end.
Proof.
  intros H. pose proof (decodificar_csv_outcome c) as Ho.
  unfold Es.cargar_csv, decodificar_csv in *. run_es. rewrite H. simpl.
  destruct (read c) as [text|e]; simpl in *; [|by destruct e].
  destruct (comprehension_over _ _) as [ms|e]; simpl in *; [done|by destruct e].
Qed.

(** X19.  The loads of the Spanish variant.  With no file of the name they
    return, the movements reset to empty and a line printed that says so;
    with a file, they return with the decoded movements in the place of the
    old ones and another line printed, or raise an exception that is not
    [FileNotFoundError] (decoder error, refusal of [open]) and leave
    everything as it was.  The files are never written. *)
Theorem cargar_absent_is_not_failure (archivo : string) (w : Es.World) :
  (Es.files w !! archivo = None →
     Es.cargar_json archivo w = (Return (), cargado w [] no_encontrado_json)
     ∧ Es.cargar_csv archivo w = (Return (), cargado w [] no_encontrado_csv))
  ∧ (Es.files w !! archivo ≠ None →
       ((∃ ms, Es.cargar_json archivo w
               = (Return (), cargado w ms ("Datos cargados desde " +:+ archivo)))
        ∨ (∃ e, is_FileNotFoundError e = false
                ∧ Es.cargar_json archivo w = (Raise e, w)))
       ∧ ((∃ ms, Es.cargar_csv archivo w
                 = (Return (), cargado w ms ("Datos cargados desde " +:+ archivo)))
          ∨ (∃ e, is_FileNotFoundError e = false
                  ∧ Es.cargar_csv archivo w = (Raise e, w))))
  ∧ "Datos cargados desde " +:+ archivo ≠ no_encontrado_json
  ∧ "Datos cargados desde " +:+ archivo ≠ no_encontrado_csv
  ∧ Es.files (Es.cargar_json archivo w).2 = Es.files w
  ∧ Es.files (Es.cargar_csv archivo w).2 = Es.files w.
Proof.
  destruct (Es.files w !! archivo) as [[c|]|] eqn:Hf.
  - rewrite (cargar_json_present _ _ c Hf), (cargar_csv_present _ _ c Hf).
    pose proof (decodificar_json_outcome c) as Hj.
    pose proof (decodificar_csv_outcome c) as Hc.
    split_and!; try done.
    + intros _. split.
      * destruct (decodificar_json c) as [ms|e]; eauto.
      * destruct (decodificar_csv c) as [ms|e]; eauto.
    + by destruct (decodificar_json c).
    + by destruct (decodificar_csv c).
  - assert (Es.cargar_json archivo w = (Raise (PermissionError archivo), w)) as ->
      by (unfold Es.cargar_json; run_es; by rewrite Hf).
    assert (Es.cargar_csv archivo w = (Raise (PermissionError archivo), w)) as ->
      by (unfold Es.cargar_csv; run_es; by rewrite Hf).
    split_and!; try done.
    intros _. split; right; exists (PermissionError archivo); done.
  - assert (Es.cargar_json archivo w = (Return (), cargado w [] no_encontrado_json))
      as -> by (unfold Es.cargar_json; run_es; by rewrite Hf).
    assert (Es.cargar_csv archivo w = (Return (), cargado w [] no_encontrado_csv))
      as -> by (unfold Es.cargar_csv; run_es; by rewrite Hf).
    split_and!; done.
Qed.


